(** * wingrr: the polyglot execution context and its dispatcher

    A shallow embedding of [src/wingrr/src/wingrr.cc].  The file has three
    layers:

    - the data of the program: the context record behind the opaque handle,
      the object store that [new] and [delete] act on, the process state the
      foreign runtimes may change (environment, working directory, the
      caller's C strings);
    - the operations, written in a small monad that threads the state,
      collects the calls made to foreign code, and distinguishes a normal
      return from [abort()], from a call that does not come back, and from
      undefined behaviour;
    - the properties of the dispatcher. *)

From Stdlib Require Import ZArith NArith Ascii.
From stdpp Require Import gmap strings list fin_maps.

Local Open Scope Z_scope.

(** ** Data model *)

(** Addresses of objects.  A pointer is [option addr]; [None] is [nullptr]. *)
Abbreviation addr := positive (only parsing).
Abbreviation nullptr := (@None positive) (only parsing).

(** Modelled from the spec: [wingrr_engine_type_t] is declared in [wingrr.h],
    which is not part of the sources.  The eight enumerators are the ones
    the dispatcher compares against; the spec gives the same closed set. *)
Inductive wingrr_engine_type_t : Set :=
| WINGRR_ENGINE_JAVASCRIPT
| WINGRR_ENGINE_TYPESCRIPT
| WINGRR_ENGINE_PYTHON
| WINGRR_ENGINE_RUBY
| WINGRR_ENGINE_LUA
| WINGRR_ENGINE_JAVA
| WINGRR_ENGINE_GO
| WINGRR_ENGINE_CSHARP.

#[global] Instance wingrr_engine_type_eq_dec : EqDecision wingrr_engine_type_t.
Proof. solve_decision. Defined.

(** The six adapter classes of namespace [wrr] that [wingrr_exec]
    instantiates (their headers live under [engines/]). *)
Inductive adapter_class : Set :=
| CSharpEngine
| GoEngine
| JavaEngine
| PythonEngine
| RubyEngine
| LuaEngine.

#[global] Instance adapter_class_eq_dec : EqDecision adapter_class.
Proof. solve_decision. Defined.

(** [struct wingrr_context_t_].  The [std::mutex] is a flag: [true] while
    some [lock_guard] holds it.  [program] and [workdir] are the raw
    [const char *] the caller handed in; the strings stay in the caller's
    memory. *)
Record wingrr_context_t_ : Set := Context_ {
  mutex : bool;
  program : option addr;
  workdir : option addr;
  type : wingrr_engine_type_t
}.

#[global] Instance wingrr_context_eq_dec : EqDecision wingrr_context_t_.
Proof. solve_decision. Defined.

Definition with_mutex (b : bool) (c : wingrr_context_t_) : wingrr_context_t_ :=
  {| mutex := b; program := program c; workdir := workdir c; type := type c |}.

Definition with_program (p : option addr) (c : wingrr_context_t_) : wingrr_context_t_ :=
  {| mutex := mutex c; program := p; workdir := workdir c; type := type c |}.

Definition with_workdir (w : option addr) (c : wingrr_context_t_) : wingrr_context_t_ :=
  {| mutex := mutex c; program := program c; workdir := w; type := type c |}.

(** What the operating system answers when asked for the working directory:
    the directory, or an error other than lack of room.  When [getcwd]
    fails POSIX leaves the buffer contents unspecified; [residue] is what
    is found in it afterwards. *)
Inductive cwd_state : Set :=
| cwd_at (dir : string)
| cwd_unavailable (err : Z) (residue : string).

(** The part of the process that foreign code can read and change:
    the environment block, the working directory, the caller's C strings
    (address to NUL-terminated contents), the bytes an uninitialised
    automatic array is found to hold (read as a C string), the bytes a
    [getcwd] that gives up for lack of room leaves in the caller's buffer
    (unspecified by POSIX; read as a C string), and whatever else the
    embedded runtimes keep ([hidden], of a type chosen by the host). *)
Record process (R : Type) : Type := Process {
  environ : gmap string string;
  cwd : cwd_state;
  memory : gmap addr string;
  stack_residue : string;
  getcwd_residue : string;
  hidden : R
}.
Arguments Process {R} _ _ _ _ _ _.
Arguments environ {R} _.
Arguments cwd {R} _.
Arguments memory {R} _.
Arguments stack_residue {R} _.
Arguments getcwd_residue {R} _.
Arguments hidden {R} _.

Definition with_environ {R} (e : gmap string string) (p : process R) : process R :=
  {| environ := e; cwd := cwd p; memory := memory p;
     stack_residue := stack_residue p; getcwd_residue := getcwd_residue p;
     hidden := hidden p |}.

(** The whole state: the process, and the contexts allocated by [new].
    Foreign code never receives a context handle, so it acts on [proc]
    only. *)
Record state (R : Type) : Type := State {
  proc : process R;
  contexts : gmap addr wingrr_context_t_
}.
Arguments State {R} _ _.
Arguments proc {R} _.
Arguments contexts {R} _.

Definition with_proc {R} (p : process R) (s : state R) : state R :=
  {| proc := p; contexts := contexts s |}.

Definition with_contexts {R} (h : gmap addr wingrr_context_t_) (s : state R) : state R :=
  {| proc := proc s; contexts := h |}.

(** The fields of a context that the setters assign. *)
Inductive field : Set := f_program | f_workdir.

(** What a call leaves behind for an observer: stores into a context and
    calls into foreign code, in program order. *)
Inductive event : Set :=
| ev_store (h : addr) (f : field) (v : option addr)
| ev_setenv (name value : string)
| ev_node_main (argc : Z) (argv : list string)
| ev_construct (k : adapter_class) (workdir : string)
| ev_execute (k : adapter_class) (program : string)
| ev_destruct (k : adapter_class).

#[global] Instance field_eq_dec : EqDecision field.
Proof. solve_decision. Defined.

#[global] Instance event_eq_dec : EqDecision event.
Proof. solve_decision. Defined.

(** How a call ends. *)
Inductive outcome (R A : Type) : Type :=
| Returned (a : A) (s : state R) (t : list event)
| Aborted (t : list event)      (* a failed [assert]: [abort()] *)
| NoReturn (t : list event)     (* blocked on the mutex, or foreign code
                                   that ends the process or never
                                   finishes *)
| Undefined.                    (* undefined behaviour *)
Arguments Returned {R A} _ _ _.
Arguments Aborted {R A} _.
Arguments NoReturn {R A} _.
Arguments Undefined {R A}.

(** An entry of [std::vector<const char *>]: the address of one of this
    file's string literals, or a pointer value copied from elsewhere. *)
Inductive char_ptr : Set :=
| Literal (s : string)
| Pointer (p : option addr).

(** A [char buf[n]]: its real extent and the C string it holds. *)
Record char_array : Set := CharArray {
  extent : N;
  text : string
}.

(** The foreign code the dispatcher links against.  None of it is in the
    sources; each entry is an arbitrary partial function of the process
    state.  [None] stands for a call after which nothing of the caller
    runs any more: the process is ended inside it ([exit], a crash), or it
    never finishes.  A C++ exception leaving foreign code is outside this
    model: the interface has C linkage, [node_main] is a C entry point, and
    the adapters are held to turn every failure into a status. *)
Record host : Type := Host {
  runtime_state : Type;
  engine : adapter_class -> Type;
  node_main : Z -> list string -> process runtime_state ->
              option (Z * process runtime_state);
  engine_new : forall k, string -> process runtime_state ->
               option (engine k * process runtime_state);
  engine_execute : forall k, engine k -> string -> process runtime_state ->
                   option (Z * engine k * process runtime_state);
  engine_delete : forall k, engine k -> process runtime_state ->
                  option (process runtime_state)
}.

(** ** The execution monad *)

(** A computation reads and updates the state and reports its events. *)
Definition exec_monad (R A : Type) : Type := state R -> outcome R A.

Definition prepend {R A} (t : list event) (o : outcome R A) : outcome R A :=
  match o with
  | Returned a s t' => Returned a s (t ++ t')
  | Aborted t' => Aborted (t ++ t')
  | NoReturn t' => NoReturn (t ++ t')
  | Undefined => Undefined
  end.

#[global] Instance exec_ret (R : Type) : MRet (exec_monad R) :=
  fun A a s => Returned a s [].

#[global] Instance exec_bind (R : Type) : MBind (exec_monad R) :=
  fun A B k m s =>
    match m s with
    | Returned a s' t => prepend t (k a s')
    | Aborted t => Aborted t
    | NoReturn t => NoReturn t
    | Undefined => Undefined
    end.

Definition emit {R} (e : event) : exec_monad R unit :=
  fun s => Returned () s [e].

Definition abort {R A} : exec_monad R A := fun _ => Aborted [].

Definition blocked {R A} : exec_monad R A := fun _ => NoReturn [].

Definition undefined {R A} : exec_monad R A := fun _ => Undefined.

(** [assert(e)] of <cassert>, in a build that keeps assertions. *)
Definition c_assert {R} (e : bool) : exec_monad R unit :=
  if e then mret () else abort.

(** Using a pointer as an object: null has no pointee. *)
Definition ptr {R} (p : option addr) : exec_monad R addr :=
  match p with
  | Some h => mret h
  | None => undefined
  end.

(** Reading and writing a context through its address; an address that
    [new] did not hand out (or that was deleted) is dangling. *)
Definition load {R} (h : addr) : exec_monad R wingrr_context_t_ :=
  fun s =>
    match contexts s !! h with
    | Some c => Returned c s []
    | None => Undefined
    end.

Definition store {R} (h : addr) (c : wingrr_context_t_) : exec_monad R unit :=
  fun s =>
    match contexts s !! h with
    | Some _ => Returned () (with_contexts (<[h:=c]> (contexts s)) s) []
    | None => Undefined
    end.

(** [std::mutex::lock] and [unlock].  With one thread of control, locking
    a held mutex never comes back. *)
Definition lock {R} (h : addr) : exec_monad R unit :=
  c ← load h;
  if mutex c then blocked else store h (with_mutex true c).

Definition unlock {R} (h : addr) : exec_monad R unit :=
  c ← load h;
  store h (with_mutex false c).

(** [std::lock_guard<std::mutex> lock(m)] around the rest of a function
    body: acquired at the declaration, released when the body returns. *)
Definition lock_guard {R A} (h : addr) (body : exec_monad R A) : exec_monad R A :=
  lock h;;
  a ← body;
  unlock h;;
  mret a.

Definition get_proc {R} : exec_monad R (process R) :=
  fun s => Returned (proc s) s [].

Definition put_proc {R} (p : process R) : exec_monad R unit :=
  fun s => Returned () (with_proc p s) [].

(** A call into foreign code. *)
Definition foreign {R A} (f : process R -> option (A * process R)) : exec_monad R A :=
  fun s =>
    match f (proc s) with
    | Some (a, p) => Returned a (with_proc p s) []
    | None => NoReturn []
    end.

(** Reading the C string behind a [const char *]. *)
Definition c_str {R} (p : option addr) : exec_monad R string :=
  fun s =>
    match p with
    | Some a =>
        match memory (proc s) !! a with
        | Some v => Returned v s []
        | None => Undefined
        end
    | None => Undefined
    end.

Definition resolve {R} (a : char_ptr) : exec_monad R string :=
  match a with
  | Literal s => mret s
  | Pointer p => c_str p
  end.

Fixpoint c_strs {R} (l : list char_ptr) : exec_monad R (list string) :=
  match l with
  | [] => mret []
  | a :: l' => s ← resolve a; r ← c_strs l'; mret (s :: r)
  end.

(** ** libuv *)

(** libuv is a third-party library the program links against, not code
    of this repository.  The three calls used here are written out after
    libuv's implementation for unix: [uv_os_getenv] copies the value and
    sets [size] to its length; when the value does not fit it returns
    [UV_ENOBUFS], sets [size] to the storage required and leaves the buffer
    alone; when the variable does not exist it returns [UV_ENOENT] and
    touches nothing. *)
Definition UV_EINVAL : Z := -22.
Definition UV_ENOENT : Z := -2.
Definition UV_ENOBUFS : Z := -105.

Definition strlen (s : string) : N := N.of_nat (String.length s).

(** Copying a C string into an array; [None] when it runs past the end. *)
Definition fill (b : char_array) (s : string) : option char_array :=
  if (strlen s + 1 <=? extent b)%N
  then Some {| extent := extent b; text := s |}
  else None.

Definition uv_os_getenv {R} (p : process R) (name : string)
    (buffer : char_array) (size : N) : option (Z * char_array * N) :=
  if (size =? 0)%N then Some (UV_EINVAL, buffer, size)
  else
    match environ p !! name with
    | None => Some (UV_ENOENT, buffer, size)
    | Some var =>
        if (size <=? strlen var)%N
        then Some (UV_ENOBUFS, buffer, (strlen var + 1)%N)
        else b ← fill buffer var; Some (0, b, strlen var)
    end.

Definition UV_ERANGE : Z := -34.

(** [PATH_MAX] of <limits.h> as libuv takes it over; 4096 on Linux. *)
Definition UV__PATH_MAX : N := 4096.

(** How a call of [getcwd] ends: the array as written, or the error (as
    libuv negates it) and the array as found afterwards. *)
Inductive getcwd_result : Set :=
| getcwd_wrote (b : char_array)
| getcwd_failed (err : Z) (b : char_array).

(** [getcwd(buf, size)] as the C library on Linux does it.  A path that
    with its terminator fits [PATH_MAX] is answered by the kernel, which
    copies exactly the path and its terminator when [size] has room for
    them.  A longer path is put together by the library inside the [size]
    bytes it was told it may use, from their end backwards: when that is
    more than the array has, it writes past the array.  When the path does
    not fit [size] the call fails with [ERANGE]. *)
Definition getcwd {R} (p : process R) (buffer : char_array) (size : N)
    : option getcwd_result :=
  match cwd p with
  | cwd_at dir =>
      if (strlen dir <? UV__PATH_MAX)%N && (strlen dir <? size)%N
      then b ← fill buffer dir; Some (getcwd_wrote b)
      else if (strlen dir <? UV__PATH_MAX)%N
      then Some (getcwd_failed UV_ERANGE
                   {| extent := extent buffer; text := getcwd_residue p |})
      else if (extent buffer <? size)%N then None
      else if (strlen dir <? size)%N
      then b ← fill buffer dir; Some (getcwd_wrote b)
      else Some (getcwd_failed UV_ERANGE
                   {| extent := extent buffer; text := getcwd_residue p |})
  | cwd_unavailable err residue =>
      Some (getcwd_failed err {| extent := extent buffer; text := residue |})
  end.

(** The string without its last character when that is a slash and not
    the whole string. *)
Definition drop_trailing_slash (s : string) : string :=
  let n := String.length s in
  if Nat.ltb 1 n && bool_decide (String.get (n - 1) s = Some "/"%char)
  then String.substring 0 (n - 1) s
  else s.

(** [uv_cwd], after libuv's source for unix.  [getcwd] is tried on the
    caller's buffer; if that fails for lack of room it is tried on a
    scratch array of [PATH_MAX + 1] bytes, to tell the caller the size to
    come back with: [UV_ENOBUFS] when the scratch array was enough, the
    error of the second attempt when not.  A trailing slash is dropped
    from what is reported. *)
Definition uv_cwd {R} (p : process R) (buffer : char_array) (size : N)
    : option (Z * char_array * N) :=
  if (size =? 0)%N then Some (UV_EINVAL, buffer, size)
  else
    r ← getcwd p buffer size;
    match r with
    | getcwd_wrote b =>
        let dir := drop_trailing_slash (text b) in
        Some (0, {| extent := extent b; text := dir |}, strlen dir)
    | getcwd_failed err b =>
        if err =? UV_ERANGE then
          let scratch :=
            {| extent := (1 + UV__PATH_MAX)%N; text := EmptyString |} in
          r' ← getcwd p scratch (1 + UV__PATH_MAX)%N;
          match r' with
          | getcwd_wrote found =>
              Some (UV_ENOBUFS, b, (strlen (drop_trailing_slash (text found)) + 1)%N)
          | getcwd_failed err' _ => Some (err', b, size)
          end
        else Some (err, b, size)
    end.

(** [uv_os_setenv(name, value)] with both arguments non-null. *)
Definition uv_os_setenv {R} (name value : string) : exec_monad R Z :=
  p ← get_proc;
  put_proc (with_environ (<[name:=value]> (environ p)) p);;
  emit (ev_setenv name value);;
  mret 0.

(** A libuv query made from inside the monad. *)
Definition query {R A} (f : process R -> option A) : exec_monad R A :=
  fun s =>
    match f (proc s) with
    | Some a => Returned a s []
    | None => Undefined
    end.

(** [char buf[n];] with no initialiser. *)
Definition uninitialised {R} (n : N) : exec_monad R char_array :=
  p ← get_proc;
  mret {| extent := n; text := stack_residue p |}.

(** ** The path resolver (anonymous namespace) *)

(** [_get_runtime_path].  [buf] is an array, so [!buf] is false; [||] and
    [&&] short-circuit, and [&&] binds tighter than [||]. *)
Definition _get_runtime_path {R} (p : process R) : option string :=
  let buflen : N := 4096%N in
  let buf := {| extent := buflen; text := EmptyString |} in
  '(_, buf, buflen) ← uv_os_getenv p "WINGRR_ROOT" buf buflen;
  if (buflen =? 0)%N then Some "."
  else if bool_decide (text buf = EmptyString) then
    '(rc, buf, buflen) ← uv_cwd p buf buflen;
    if rc =? UV_ENOBUFS then Some "." else Some (text buf)
  else Some (text buf).

(** [RUNTIME_PATH] is initialised once, from the process as it is when the
    library is loaded; [_resolve] then only concatenates. *)
Definition _resolve (RUNTIME_PATH rel : string) : string :=
  RUNTIME_PATH +:+ "/" +:+ rel.

(** ** The C interface *)

Section Interface.

Context (X : host).

Local Abbreviation R := (runtime_state X).
Local Abbreviation M := (exec_monad R).

(** [new wingrr_context_t_()] value-initialises: the mutex is free and both
    pointers are null.  The [type] member is assigned before the handle
    leaves [wingrr_prep], so the object is entered with it already set. *)
Definition wingrr_prep (type : wingrr_engine_type_t) : M (option addr) :=
  fun s =>
    let instance := fresh (dom (contexts s)) in
    let object :=
      {| mutex := false; program := nullptr; workdir := nullptr; type := type |} in
    Returned (Some instance)
             (with_contexts (<[instance:=object]> (contexts s)) s) [].

Definition wingrr_set_program (instance : option addr) (program' : option addr) : M unit :=
  c_assert (bool_decide (instance <> nullptr));;
  this ← ptr instance;
  lock_guard this (
    c ← load this;
    if bool_decide (program c = program') then mret ()
    else
      store this (with_program program' c);;
      emit (ev_store this f_program program')).

Definition wingrr_set_workdir (instance : option addr) (context : option addr) : M unit :=
  c_assert (bool_decide (instance <> nullptr));;
  this ← ptr instance;
  lock_guard this (
    c ← load this;
    if bool_decide (workdir c = context) then mret ()
    else
      store this (with_workdir context c);;
      emit (ev_store this f_workdir context)).

(** The argument vector built for the embedded runtime, terminator
    included. *)
Definition node_argv (c : wingrr_context_t_) : list char_ptr :=
  let argv := [Literal "wingrr";
               Literal "--experimental-modules";
               Literal "--experimental-wasi-unstable-preview1";
               Literal "--no-global-search-paths";
               Literal "--no-experimental-fetch";
               Literal "--no-deprecation";
               Literal "--no-warnings";
               Literal "--no-addons"] in
  let argv :=
    if bool_decide (type c = WINGRR_ENGINE_TYPESCRIPT)
    then (argv ++ [Literal "--require"]) ++ [Literal "ts-node/register/transpile-only"]
    else argv in
  let argv := argv ++ [Pointer (program c)] in
  argv ++ [Pointer nullptr].

(** [node_main(argc, argv)]: the runtime reads [argc] strings. *)
Definition call_node_main (argc : Z) (argv : list char_ptr) : M Z :=
  args ← c_strs (take (Z.to_nat argc) argv);
  emit (ev_node_main argc args);;
  foreign (node_main X argc args).

(** [{ wrr::K engine(workdir); ret = engine.execute(program); }]: the
    object is built, used once and destroyed at the closing brace.  When
    the constructor or [execute] ends the process or never finishes,
    nothing after it is reached. *)
Definition run_engine (k : adapter_class) (workdir program : option addr) : M Z :=
  w ← c_str workdir;
  emit (ev_construct k w);;
  e ← foreign (engine_new X k w);
  p ← c_str program;
  emit (ev_execute k p);;
  '(ret, e) ← foreign (engine_execute X k e p);
  emit (ev_destruct k);;
  foreign (fun pr => pair () <$> engine_delete X k e pr);;
  mret ret.

(** The body of [wingrr_exec] below the [lock_guard] declaration, with
    [c] the object behind [instance].  [ret] starts as 0 and is what the
    function returns when no branch assigns it. *)
Definition wingrr_exec_body (c : wingrr_context_t_) : M Z :=
  c_assert (bool_decide (program c <> nullptr));;
  c_assert (bool_decide (workdir c <> nullptr));;
  if bool_decide (type c = WINGRR_ENGINE_JAVASCRIPT) ||
     bool_decide (type c = WINGRR_ENGINE_TYPESCRIPT)
  then
    let argv := node_argv c in
    let buflen : N := 4096%N in
    buf ← uninitialised buflen;
    '(_, buf, buflen) ← query (fun p => uv_os_getenv p "NODE_PATH" buf buflen);
    w ← c_str (workdir c);
    uv_os_setenv "NODE_PATH" w;;
    ret ← call_node_main (Z.of_nat (length argv) - 1) argv;
    uv_os_setenv "NODE_PATH" (text buf);;
    mret ret
  else if bool_decide (type c = WINGRR_ENGINE_CSHARP)
  then run_engine CSharpEngine (workdir c) (program c)
  else if bool_decide (type c = WINGRR_ENGINE_GO)
  then run_engine GoEngine (workdir c) (program c)
  else if bool_decide (type c = WINGRR_ENGINE_JAVA)
  then run_engine JavaEngine (workdir c) (program c)
  else if bool_decide (type c = WINGRR_ENGINE_PYTHON)
  then run_engine PythonEngine (workdir c) (program c)
  else if bool_decide (type c = WINGRR_ENGINE_RUBY)
  then run_engine RubyEngine (workdir c) (program c)
  else if bool_decide (type c = WINGRR_ENGINE_LUA)
  then run_engine LuaEngine (workdir c) (program c)
  else mret 0.

Definition wingrr_exec (instance : option addr) : M Z :=
  c_assert (bool_decide (instance <> nullptr));;
  this ← ptr instance;
  lock_guard this (
    c ← load this;
    wingrr_exec_body c).

(** [delete instance]: nothing for null; destroying a held mutex or
    deleting what is not allocated is undefined. *)
Definition wingrr_free (instance : option addr) : M unit :=
  fun s =>
    match instance with
    | None => Returned () s []
    | Some h =>
        match contexts s !! h with
        | Some c =>
            if mutex c then Undefined
            else Returned () (with_contexts (delete h (contexts s)) s) []
        | None => Undefined
        end
    end.

End Interface.

(** ** Sequences of calls made by a client *)

Inductive api_call : Set :=
| call_set_program (instance program : option addr)
| call_set_workdir (instance context : option addr)
| call_exec (instance : option addr).

Definition run_call (X : host) (c : api_call) : exec_monad (runtime_state X) unit :=
  match c with
  | call_set_program instance p => wingrr_set_program X instance p
  | call_set_workdir instance w => wingrr_set_workdir X instance w
  | call_exec instance => _ ← wingrr_exec X instance; mret ()
  end.

Fixpoint run_calls (X : host) (l : list api_call) : exec_monad (runtime_state X) unit :=
  match l with
  | [] => mret ()
  | c :: l' => run_call X c;; run_calls X l'
  end.

(** Configure an existing context anew and execute it; and the same on a
    context made for the purpose. *)
Definition reconfigure_and_exec (X : host) (instance program workdir : option addr)
    : exec_monad (runtime_state X) Z :=
  wingrr_set_program X instance program;;
  wingrr_set_workdir X instance workdir;;
  wingrr_exec X instance.

Definition fresh_and_exec (X : host) (t : wingrr_engine_type_t)
    (program workdir : option addr) : exec_monad (runtime_state X) Z :=
  instance ← wingrr_prep X t;
  reconfigure_and_exec X instance program workdir.

(** ** What an observer outside the library sees *)

(** Calls into foreign code, as opposed to stores into a context. *)
Definition is_call (e : event) : bool :=
  match e with
  | ev_store _ _ _ => false
  | _ => true
  end.

Definition calls_of (t : list event) : list event := List.filter is_call t.

(** The two dispatch shapes, and which one an event belongs to. *)
Inductive target : Set :=
| module_runtime
| external_adapter (k : adapter_class).

#[global] Instance target_eq_dec : EqDecision target.
Proof. solve_decision. Defined.

Definition invocation (e : event) : option target :=
  match e with
  | ev_node_main _ _ => Some module_runtime
  | ev_execute k _ => Some (external_adapter k)
  | _ => None
  end.

Definition invocations (t : list event) : list target := omap invocation t.

(** The behaviour of a call: how it ended, the status and the process it
    left, and the foreign calls it made. *)
Inductive behaviour (R : Type) : Type :=
| returns (status : Z) (p : process R) (calls : list event)
| aborts (calls : list event)
| never_returns (calls : list event)
| is_undefined.
Arguments returns {R} _ _ _.
Arguments aborts {R} _.
Arguments never_returns {R} _.
Arguments is_undefined {R}.

Definition observe {R} (o : outcome R Z) : behaviour R :=
  match o with
  | Returned r s t => returns r (proc s) (calls_of t)
  | Aborted t => aborts (calls_of t)
  | NoReturn t => never_returns (calls_of t)
  | Undefined => is_undefined
  end.

(** Replacing the object store in a result. *)
Definition on_contexts {R A} (H : gmap addr wingrr_context_t_) (o : outcome R A)
    : outcome R A :=
  match o with
  | Returned a s t => Returned a (with_contexts H s) t
  | _ => o
  end.

(** A computation that neither reads nor writes the object store. *)
Definition proc_only {R A} (m : exec_monad R A) : Prop :=
  forall p H H', m (State p H') = on_contexts H' (m (State p H)).

(** A computation that never ends in [abort()]. *)
Definition never_aborts {R A} (m : exec_monad R A) : Prop :=
  forall s t, m s <> Aborted t.

(** The adapter of class [k], constructed on [wd] in process [q], executes
    the string at [p] (which then reads [prog]) with status [r], and is
    destroyed leaving process [q']. *)
Definition adapter_answers (X : host) (k : adapter_class) (wd : string)
    (p : addr) (prog : string) (q : process (runtime_state X)) (r : Z)
    (q' : process (runtime_state X)) : Prop :=
  exists e p1 e' p2,
    engine_new X k wd q = Some (e, p1) /\
    memory p1 !! p = Some prog /\
    engine_execute X k e prog p1 = Some (r, e', p2) /\
    engine_delete X k e' p2 = Some q'.

(** The embedded runtime, started on [args] with the search path set to
    [wd], returns status [r] and leaves process [q']. *)
Definition runtime_answers (X : host) (args : list string) (wd : string)
    (q : process (runtime_state X)) (r : Z) (q' : process (runtime_state X)) : Prop :=
  node_main X (Z.of_nat (length args)) args
            (with_environ (<["NODE_PATH":=wd]> (environ q)) q) = Some (r, q').

(** ** The specification's reading of routing and of the runtime root *)

(** Routing as the specification words it: JavaScript and TypeScript go to
    the in-process module runtime, every other engine type to the adapter
    of its language. *)
Definition spec_route (t : wingrr_engine_type_t) : target :=
  match t with
  | WINGRR_ENGINE_JAVASCRIPT => module_runtime
  | WINGRR_ENGINE_TYPESCRIPT => module_runtime
  | WINGRR_ENGINE_PYTHON => external_adapter PythonEngine
  | WINGRR_ENGINE_RUBY => external_adapter RubyEngine
  | WINGRR_ENGINE_LUA => external_adapter LuaEngine
  | WINGRR_ENGINE_JAVA => external_adapter JavaEngine
  | WINGRR_ENGINE_GO => external_adapter GoEngine
  | WINGRR_ENGINE_CSHARP => external_adapter CSharpEngine
  end.

(** The strings the runtime is expected to be started with: the
    placeholder and the fixed flags (no fetch, no global search paths, no
    add-ons, no deprecation or other warnings, WASI and ES modules on), and
    the transpile-only loader pair. *)
Definition fixed_flags : list string :=
  ["wingrr"; "--experimental-modules"; "--experimental-wasi-unstable-preview1";
   "--no-global-search-paths"; "--no-experimental-fetch"; "--no-deprecation";
   "--no-warnings"; "--no-addons"].

Definition loader_pair : list string :=
  ["--require"; "ts-node/register/transpile-only"].

(** The fallback chain as the specification words it: the override when it
    is present, not empty and fits the buffer; else the working directory;
    else the current-directory marker. *)
Definition spec_cwd_or_marker {R} (p : process R) : string :=
  match cwd p with
  | cwd_at dir => if (strlen dir <? 4096)%N then dir else "."
  | cwd_unavailable _ _ => "."
  end.

Definition spec_resolveRuntimeRoot {R} (p : process R) : string :=
  match environ p !! "WINGRR_ROOT" with
  | Some v =>
      if bool_decide (v = EmptyString) || (4096 <=? strlen v)%N
      then spec_cwd_or_marker p
      else v
  | None => spec_cwd_or_marker p
  end.

(** In the order the specification gives: the fixed flags, the loader
    pair for TypeScript only, then the program. *)
Definition expected_args (t : wingrr_engine_type_t) (prog : string) : list string :=
  fixed_flags ++
  (if bool_decide (t = WINGRR_ENGINE_TYPESCRIPT) then loader_pair else []) ++
  [prog].

(** What the save buffer of [wingrr_exec] holds once [uv_os_getenv] has
    run: the value if there is one and it fits, else what the array held
    before. *)
Definition saved_search_path {R} (p : process R) : string :=
  match environ p !! "NODE_PATH" with
  | Some v => if (4096 <=? strlen v)%N then stack_residue p else v
  | None => stack_residue p
  end.

(** The path that the specification's routing selects for engine type
    [t] answers with status [r]. *)
Definition path_answers (X : host) (t : wingrr_engine_type_t) (wd : string)
    (p : addr) (prog : string) (q : process (runtime_state X)) (r : Z)
    (q' : process (runtime_state X)) : Prop :=
  match spec_route t with
  | module_runtime =>
      memory q !! p = Some prog /\
      runtime_answers X (expected_args t prog) wd q r q'
  | external_adapter k => adapter_answers X k wd p prog q r q'
  end.

(** ** A host for worked examples *)

(** Every adapter answers with a status of its own; the module runtime
    remembers the search path it was started with, overwrites the variable
    (as a script may through [process.env]) and answers 7. *)
Definition demo_status (k : adapter_class) : Z :=
  match k with
  | CSharpEngine => 11
  | GoEngine => 12
  | JavaEngine => 13
  | PythonEngine => 14
  | RubyEngine => 15
  | LuaEngine => 16
  end.

Definition demo_host : host := {|
  runtime_state := option string;
  engine := fun _ => string;
  node_main := fun _ _ p =>
    Some (7, {| environ := <["NODE_PATH":="clobbered"]> (environ p);
                cwd := cwd p; memory := memory p;
                stack_residue := stack_residue p;
                getcwd_residue := getcwd_residue p;
                hidden := environ p !! "NODE_PATH" |});
  engine_new := fun _ w p => Some (w, p);
  engine_execute := fun k e _ p => Some (demo_status k, e, p);
  engine_delete := fun _ _ p => Some p
|}.

Definition demo_memory : gmap addr string :=
  <[1%positive:="hello.py"]> (<[2%positive:="/tmp/scripts"]>
  (<[3%positive:="main.ts"]> (<[4%positive:="/srv/app"]> ∅))).

Definition demo_process (env : gmap string string) : process (option string) :=
  {| environ := env; cwd := cwd_at "/home/user"; memory := demo_memory;
     stack_residue := "junk"; getcwd_residue := "left"; hidden := None |}.

(** A state with one configured context at address 1. *)
Definition demo_state (env : gmap string string) (t : wingrr_engine_type_t)
    (program workdir : option addr) : state (option string) :=
  {| proc := demo_process env;
     contexts := {[ 1%positive :=
       {| mutex := false; program := program; workdir := workdir; type := t |} ]} |}.

Fixpoint replicate_char (n : nat) (a : ascii) : string :=
  match n with
  | O => EmptyString
  | S n' => String a (replicate_char n' a)
  end.

(** A search path of exactly 4096 characters. *)
Definition long_value : string := replicate_char 4096 "a"%char.

(** ** States between calls, and a whole session *)

(** No mutex is held: the state a single thread of control sees between
    two calls of the interface. *)
Definition idle {R} (s : state R) : Prop :=
  forall h c, contexts s !! h = Some c -> mutex c = false.

(** The lifecycle in one go: create, configure, execute, destroy. *)
Definition session (X : host) (t : wingrr_engine_type_t)
    (program workdir : option addr) : exec_monad (runtime_state X) Z :=
  instance ← wingrr_prep X t;
  wingrr_set_program X instance program;;
  wingrr_set_workdir X instance workdir;;
  ret ← wingrr_exec X instance;
  wingrr_free X instance;;
  mret ret.

(** Two contexts made one after the other. *)
Definition prep_twice (X : host) (t1 t2 : wingrr_engine_type_t)
    : exec_monad (runtime_state X) (option addr * option addr) :=
  a ← wingrr_prep X t1;
  b ← wingrr_prep X t2;
  mret (a, b).

(** The state a call left, when it returned. *)
Definition final_state {R A} (o : outcome R A) : option (state R) :=
  match o with
  | Returned _ s _ => Some s
  | _ => None
  end.

(** A host whose foreign code does not come back: the runtime never
    returns, and neither does an adapter's [execute]; the adapter
    constructors return or not as [ctor_returns] says. *)
Definition hanging_host (ctor_returns : bool) : host := {|
  runtime_state := option string;
  engine := fun _ => string;
  node_main := fun _ _ _ => None;
  engine_new := fun _ w p => if ctor_returns then Some (w, p) else None;
  engine_execute := fun _ _ _ _ => None;
  engine_delete := fun _ _ p => Some p
|}.



(** A process with no override, in a directory of [n] characters. *)
Definition deep_process (n : nat) : process unit :=
  {| environ := ∅; cwd := cwd_at (replicate_char n "d"%char);
     memory := ∅; stack_residue := EmptyString; getcwd_residue := "left";
     hidden := () |}.

(** * Properties *)

(** ** Running the monad *)

Section Monad.

Context {R : Type}.

Lemma prepend_nil {A} (o : outcome R A) : prepend [] o = o.
Proof. by destruct o. Qed.

Lemma prepend_prepend {A} (t1 t2 : list event) (o : outcome R A) :
  prepend t1 (prepend t2 o) = prepend (t1 ++ t2) o.
Proof. destruct o; simpl; by rewrite ?app_assoc. Qed.

Lemma bind_returned {A B} (m : exec_monad R A) (k : A -> exec_monad R B) s a s' t :
  m s = Returned a s' t -> (m ≫= k) s = prepend t (k a s').
Proof. intros E. unfold mbind, exec_bind. by rewrite E. Qed.

Lemma bind_assoc {A B C} (m : exec_monad R A) (k : A -> exec_monad R B)
    (k' : B -> exec_monad R C) s :
  ((m ≫= k) ≫= k') s = (m ≫= (fun a => k a ≫= k')) s.
Proof.
  unfold mbind, exec_bind.
  destruct (m s) as [a s1 t1| | |]; simpl; try done.
  destruct (k a s1) as [b s2 t2| | |]; simpl; try done.
  destruct (k' b s2); simpl; by rewrite ?app_assoc.
Qed.

Lemma with_contexts_same (s : state R) : with_contexts (contexts s) s = s.
Proof. by destruct s. Qed.

Lemma on_contexts_prepend {A} H t (o : outcome R A) :
  on_contexts H (prepend t o) = prepend t (on_contexts H o).
Proof. by destruct o. Qed.

(** *** Computations that leave the object store alone *)

Lemma proc_only_same {A} (m : exec_monad R A) s :
  proc_only m -> on_contexts (contexts s) (m s) = m s.
Proof. intros F. destruct s as [p H]. simpl. by rewrite <- F. Qed.

Lemma proc_only_contexts {A} (m : exec_monad R A) s a s' t :
  proc_only m -> m s = Returned a s' t -> contexts s' = contexts s.
Proof.
  intros F E. pose proof (proc_only_same m s F) as E'.
  rewrite E in E'. simpl in E'. by inversion E'.
Qed.

Lemma proc_only_ret {A} (a : A) : proc_only (mret a : exec_monad R A).
Proof. by intros p H H'. Qed.

Lemma proc_only_bind {A B} (m : exec_monad R A) (k : A -> exec_monad R B) :
  proc_only m -> (forall a, proc_only (k a)) -> proc_only (m ≫= k).
Proof.
  intros Fm Fk p H H'. unfold mbind, exec_bind.
  rewrite (Fm p H H').
  destruct (m (State p H)) as [a [p1 H1] t| | |]; simpl; try done.
  unfold with_contexts; simpl.
  rewrite (Fk a p1 H1 H'). by rewrite on_contexts_prepend.
Qed.

Lemma proc_only_emit e : proc_only (emit e : exec_monad R unit).
Proof. by intros p H H'. Qed.

Lemma proc_only_abort {A} : proc_only (abort : exec_monad R A).
Proof. by intros p H H'. Qed.

Lemma proc_only_c_assert b : proc_only (c_assert b : exec_monad R unit).
Proof. destruct b; [apply proc_only_ret | apply proc_only_abort]. Qed.

Lemma proc_only_get_proc : proc_only (get_proc : exec_monad R (process R)).
Proof. by intros p H H'. Qed.

Lemma proc_only_put_proc q : proc_only (put_proc q : exec_monad R unit).
Proof. by intros p H H'. Qed.

Lemma proc_only_foreign {A} (f : process R -> option (A * process R)) :
  proc_only (foreign f).
Proof. intros p H H'. unfold foreign. simpl. by destruct (f p) as [[a q]|]. Qed.

Lemma proc_only_query {A} (f : process R -> option A) : proc_only (query f).
Proof. intros p H H'. unfold query. simpl. by destruct (f p). Qed.

Lemma proc_only_c_str q : proc_only (c_str q : exec_monad R string).
Proof.
  intros p H H'. unfold c_str. simpl.
  destruct q as [a|]; [|done]. by destruct (memory p !! a).
Qed.

End Monad.

Create HintDb frame.

#[export] Hint Resolve proc_only_ret proc_only_emit proc_only_abort
  proc_only_c_assert proc_only_get_proc proc_only_put_proc proc_only_foreign
  proc_only_query proc_only_c_str : frame.

(** Walks down a chain of binds. *)
Ltac frame_solve :=
  repeat first
    [ progress eauto with frame
    | apply proc_only_bind; [| intros ? ]
    | match goal with |- proc_only (let '(_, _) := ?x in _) => destruct x end
    | match goal with |- proc_only (if ?b then _ else _) => destruct b end ].

(** One step down a chain of binds, by a lemma that says how the head
    runs. *)
Ltac run E := rewrite (bind_returned _ _ _ _ _ _ E).

(** ** The dispatcher and the object store *)

Section Dispatcher.

Context (X : host).

Local Abbreviation R := (runtime_state X).

Lemma proc_only_uninitialised n : proc_only (uninitialised n : exec_monad R _).
Proof. unfold uninitialised. frame_solve. Qed.

Lemma proc_only_uv_os_setenv name value :
  proc_only (uv_os_setenv name value : exec_monad R _).
Proof. unfold uv_os_setenv. frame_solve. Qed.

Lemma proc_only_resolve a : proc_only (resolve a : exec_monad R _).
Proof. destruct a; simpl; frame_solve. Qed.

Lemma proc_only_c_strs l : proc_only (c_strs l : exec_monad R _).
Proof.
  induction l as [|a l IH]; simpl; [frame_solve|].
  apply proc_only_bind; [apply proc_only_resolve|intros s].
  apply proc_only_bind; [exact IH|intros r]. frame_solve.
Qed.

Lemma proc_only_call_node_main argc argv : proc_only (call_node_main X argc argv).
Proof.
  unfold call_node_main.
  apply proc_only_bind; [apply proc_only_c_strs|intros args]. frame_solve.
Qed.

Lemma proc_only_run_engine k w p : proc_only (run_engine X k w p).
Proof. unfold run_engine. frame_solve. Qed.

Lemma proc_only_wingrr_exec_body c : proc_only (wingrr_exec_body X c).
Proof.
  unfold wingrr_exec_body.
  do 2 (apply proc_only_bind; [frame_solve|intros _]).
  repeat match goal with
         | |- proc_only (if ?b then _ else _) => destruct b
         end;
    try apply proc_only_run_engine; [|frame_solve].
  apply proc_only_bind; [apply proc_only_uninitialised|intros buf].
  apply proc_only_bind; [frame_solve|intros [[rc buf'] buflen]].
  apply proc_only_bind; [frame_solve|intros w].
  apply proc_only_bind; [apply proc_only_uv_os_setenv|intros _].
  apply proc_only_bind; [apply proc_only_call_node_main|intros ret].
  apply proc_only_bind; [apply proc_only_uv_os_setenv|intros _].
  frame_solve.
Qed.

(** *** The lock guard *)

Lemma load_run (s : state R) h c :
  contexts s !! h = Some c -> load h s = Returned c s [].
Proof. intros E. unfold load. by rewrite E. Qed.

Lemma store_run (s : state R) h c c' :
  contexts s !! h = Some c ->
  store h c' s = Returned () (with_contexts (<[h:=c']> (contexts s)) s) [].
Proof. intros E. unfold store. by rewrite E. Qed.

Lemma with_mutex_free c : mutex c = false -> with_mutex false c = c.
Proof. destruct c; simpl; by intros ->. Qed.

Lemma with_mutex_twice b b' c : with_mutex b (with_mutex b' c) = with_mutex b c.
Proof. done. Qed.

Lemma lock_run (s : state R) h c :
  contexts s !! h = Some c -> mutex c = false ->
  lock h s = Returned () (with_contexts (<[h:=with_mutex true c]> (contexts s)) s) [].
Proof.
  intros E F. unfold lock. rewrite (bind_returned _ _ _ _ _ _ (load_run s h c E)).
  rewrite F, prepend_nil. by apply store_run with c.
Qed.

Lemma lock_held (s : state R) h c :
  contexts s !! h = Some c -> mutex c = true -> lock h s = NoReturn [].
Proof.
  intros E F. unfold lock. rewrite (bind_returned _ _ _ _ _ _ (load_run s h c E)).
  by rewrite F.
Qed.

Lemma lock_dangling (s : state R) h :
  contexts s !! h = None -> lock h s = Undefined.
Proof. intros E. unfold lock, mbind, exec_bind, load. by rewrite E. Qed.

Lemma unlock_run (s : state R) h c :
  contexts s !! h = Some c ->
  unlock h s = Returned () (with_contexts (<[h:=with_mutex false c]> (contexts s)) s) [].
Proof.
  intros E. unfold unlock. rewrite (bind_returned _ _ _ _ _ _ (load_run s h c E)).
  rewrite prepend_nil. by apply store_run with c.
Qed.

(** A guarded body that only looks up the object and then keeps off the
    object store runs as if unguarded: the guard takes the free mutex and
    gives it back. *)
Lemma lock_guard_load {A} (body : wingrr_context_t_ -> exec_monad R A)
    (s : state R) h c :
  contexts s !! h = Some c -> mutex c = false ->
  (forall c', proc_only (body c')) ->
  lock_guard h (c' ← load h; body c') s = body (with_mutex true c) s.
Proof.
  intros E F P. unfold lock_guard.
  rewrite (bind_returned _ _ _ _ _ _ (lock_run s h c E F)), prepend_nil.
  set (H1 := <[h:=with_mutex true c]> (contexts s)).
  assert (L : forall s2 : state R,
             contexts (with_contexts H1 s2) !! h = Some (with_mutex true c)).
  { intros s2. simpl. unfold H1. apply lookup_insert_eq. }
  unfold mbind at 1, exec_bind at 1.
  rewrite (bind_returned _ _ _ _ _ _ (load_run _ h _ (L s))), prepend_nil.
  destruct s as [p H0]. simpl in *. unfold with_contexts at 1. simpl.
  rewrite (P _ p H0 H1).
  destruct (body (with_mutex true c) (State p H0)) as [a s2 t| | |] eqn:B;
    simpl; try done.
  pose proof (proc_only_contexts _ _ _ _ _ (P _) B) as E2. simpl in E2.
  rewrite (bind_returned _ _ _ _ _ _ (unlock_run (with_contexts H1 s2) h _ (L s2))). simpl.
  rewrite app_nil_r. f_equal.
  destruct s2 as [p2 H2]. simpl in *. subst H2. unfold with_contexts. simpl.
  f_equal. unfold H1. rewrite insert_insert_eq, with_mutex_twice.
  rewrite (with_mutex_free c F). by apply insert_id.
Qed.

(** *** [wingrr_exec] on a live, idle context *)

Lemma wingrr_exec_body_mutex b c :
  wingrr_exec_body X (with_mutex b c) = wingrr_exec_body X c.
Proof. reflexivity. Qed.

Lemma wingrr_exec_run (s : state R) h c :
  contexts s !! h = Some c -> mutex c = false ->
  wingrr_exec X (Some h) s = wingrr_exec_body X c s.
Proof.
  intros E F. unfold wingrr_exec. simpl.
  unfold mbind at 1, exec_bind at 1. simpl.
  unfold mbind at 1, exec_bind at 1. simpl.
  rewrite (lock_guard_load _ s h c E F (proc_only_wingrr_exec_body)).
  by rewrite !prepend_nil, wingrr_exec_body_mutex.
Qed.

Lemma wingrr_exec_null (s : state R) : wingrr_exec X nullptr s = Aborted [].
Proof. done. Qed.

Lemma wingrr_exec_dangling (s : state R) h :
  contexts s !! h = None -> wingrr_exec X (Some h) s = Undefined.
Proof.
  intros E. unfold wingrr_exec. simpl.
  unfold mbind at 1, exec_bind at 1. simpl.
  unfold mbind at 1, exec_bind at 1. simpl.
  unfold lock_guard, mbind at 1, exec_bind at 1.
  by rewrite (lock_dangling s h E).
Qed.

Lemma wingrr_exec_held (s : state R) h c :
  contexts s !! h = Some c -> mutex c = true ->
  wingrr_exec X (Some h) s = NoReturn [].
Proof.
  intros E F. unfold wingrr_exec. simpl.
  unfold mbind at 1, exec_bind at 1. simpl.
  unfold mbind at 1, exec_bind at 1. simpl.
  unfold lock_guard, mbind at 1, exec_bind at 1.
  by rewrite (lock_held s h c E F).
Qed.

(** A call of [wingrr_exec] that comes back was made on a live, idle
    context, ran the body on it, and left the object store as it was. *)
Lemma wingrr_exec_returned (s s' : state R) instance r t :
  wingrr_exec X instance s = Returned r s' t ->
  exists h c, instance = Some h /\ contexts s !! h = Some c /\ mutex c = false /\
              wingrr_exec_body X c s = Returned r s' t /\
              contexts s' = contexts s.
Proof.
  intros E. destruct instance as [h|]; [|by rewrite wingrr_exec_null in E].
  destruct (contexts s !! h) as [c|] eqn:L;
    [|by rewrite (wingrr_exec_dangling s h L) in E].
  destruct (mutex c) eqn:F; [by rewrite (wingrr_exec_held s h c L F) in E|].
  rewrite (wingrr_exec_run s h c L F) in E.
  exists h, c. repeat split; try done.
  by apply (proc_only_contexts _ _ _ _ _ (proc_only_wingrr_exec_body c) E).
Qed.

(** *** Evaluating the branches *)

Lemma c_str_run (s : state R) a v :
  memory (proc s) !! a = Some v -> c_str (Some a) s = Returned v s [].
Proof. intros E. unfold c_str. by rewrite E. Qed.

Lemma foreign_run {A} (f : process R -> option (A * process R)) (s : state R) a p :
  f (proc s) = Some (a, p) -> foreign f s = Returned a (with_proc p s) [].
Proof. intros E. unfold foreign. by rewrite E. Qed.

Lemma query_run {A} (f : process R -> option A) (s : state R) a :
  f (proc s) = Some a -> query f s = Returned a s [].
Proof. intros E. unfold query. by rewrite E. Qed.

Lemma emit_run (s : state R) e : emit e s = Returned () s [e].
Proof. done. Qed.

Lemma ret_run {A} (s : state R) (a : A) :
  (mret a : exec_monad R A) s = Returned a s [].
Proof. done. Qed.

Lemma c_assert_run (s : state R) b : b = true -> c_assert b s = Returned () s [].
Proof. by intros ->. Qed.

Lemma uv_os_setenv_run (s : state R) name value :
  uv_os_setenv name value s =
    Returned 0 (with_proc (with_environ (<[name:=value]> (environ (proc s))) (proc s)) s)
             [ev_setenv name value].
Proof. done. Qed.

Lemma run_engine_run (s : state R) k w p wd prog e p1 r e' p2 p3 :
  memory (proc s) !! w = Some wd ->
  engine_new X k wd (proc s) = Some (e, p1) ->
  memory p1 !! p = Some prog ->
  engine_execute X k e prog p1 = Some (r, e', p2) ->
  engine_delete X k e' p2 = Some p3 ->
  run_engine X k (Some w) (Some p) s =
    Returned r (with_proc p3 s)
             [ev_construct k wd; ev_execute k prog; ev_destruct k].
Proof.
  intros Hw Hnew Hp Hexe Hdel. unfold run_engine.
  run (c_str_run s w wd Hw).
  run (emit_run s (ev_construct k wd)).
  run (foreign_run _ s e p1 Hnew).
  run (c_str_run (with_proc p1 s) p prog Hp).
  run (emit_run (with_proc p1 s) (ev_execute k prog)).
  run (foreign_run _ (with_proc p1 s) (r, e') p2 Hexe).
  run (emit_run (with_proc p2 (with_proc p1 s)) (ev_destruct k)).
  assert (D : (pair () <$> engine_delete X k e' (proc (with_proc p2 (with_proc p1 s))))
              = Some ((), p3)) by (simpl; by rewrite Hdel).
  run (foreign_run (fun pr => pair () <$> engine_delete X k e' pr) _ () p3 D).
  by destruct s.
Qed.

Lemma uninitialised_run (s : state R) n :
  uninitialised n s =
    Returned {| extent := n; text := stack_residue (proc s) |} s [].
Proof. done. Qed.

Lemma uv_os_getenv_save (p : process R) :
  exists rc n,
    uv_os_getenv p "NODE_PATH" {| extent := 4096; text := stack_residue p |} 4096
    = Some (rc, {| extent := 4096; text := saved_search_path p |}, n).
Proof.
  unfold uv_os_getenv, saved_search_path. simpl.
  destruct (environ p !! "NODE_PATH") as [v|]; [|by eexists _, _].
  destruct (4096 <=? strlen v)%N eqn:L; [by eexists _, _|].
  unfold fill. simpl.
  apply N.leb_gt in L.
  assert (G : (strlen v + 1 <=? 4096)%N = true) by (apply N.leb_le; lia).
  rewrite G. simpl. by eexists _, _.
Qed.

Lemma c_strs_node_argv (s : state R) c p prog :
  program c = Some p -> memory (proc s) !! p = Some prog ->
  c_strs (take (Z.to_nat (Z.of_nat (length (node_argv c)) - 1)) (node_argv c)) s
  = Returned (expected_args (type c) prog) s [].
Proof.
  intros Hp Hm. unfold node_argv, expected_args. rewrite Hp.
  destruct (bool_decide (type c = WINGRR_ENGINE_TYPESCRIPT)); simpl;
    cbv [mbind exec_bind mret exec_ret c_str prepend]; by rewrite Hm.
Qed.

Lemma call_node_main_run (s : state R) argc argv args r p' :
  c_strs (take (Z.to_nat argc) argv) s = Returned args s [] ->
  node_main X argc args (proc s) = Some (r, p') ->
  call_node_main X argc argv s = Returned r (with_proc p' s) [ev_node_main argc args].
Proof.
  intros Hs Hn. unfold call_node_main.
  run Hs. run (emit_run s (ev_node_main argc args)).
  by rewrite (foreign_run _ s r p' Hn).
Qed.

Lemma spec_node_args_length (t : wingrr_engine_type_t) prog c :
  type c = t ->
  Z.of_nat (length (node_argv c)) - 1 = Z.of_nat (length (expected_args t prog)).
Proof.
  intros <-. unfold node_argv, expected_args.
  by destruct (bool_decide (type c = WINGRR_ENGINE_TYPESCRIPT)).
Qed.

(** The module-runtime branch, start to finish. *)
Lemma node_branch_run (s : state R) c p w prog wd r p' :
  spec_route (type c) = module_runtime ->
  program c = Some p -> workdir c = Some w ->
  memory (proc s) !! p = Some prog -> memory (proc s) !! w = Some wd ->
  node_main X (Z.of_nat (length (expected_args (type c) prog)))
            (expected_args (type c) prog)
            (with_environ (<["NODE_PATH":=wd]> (environ (proc s))) (proc s))
    = Some (r, p') ->
  wingrr_exec_body X c s =
    Returned r
      (with_proc (with_environ
                    (<["NODE_PATH":=saved_search_path (proc s)]> (environ p')) p') s)
      [ev_setenv "NODE_PATH" wd;
       ev_node_main (Z.of_nat (length (expected_args (type c) prog)))
                    (expected_args (type c) prog);
       ev_setenv "NODE_PATH" (saved_search_path (proc s))].
Proof.
  intros Hr Hp Hw Hmp Hmw Hn. unfold wingrr_exec_body.
  rewrite Hp, Hw.
  run (c_assert_run s (bool_decide (Some p <> nullptr)) eq_refl).
  run (c_assert_run s (bool_decide (Some w <> nullptr)) eq_refl).
  assert (B : bool_decide (type c = WINGRR_ENGINE_JAVASCRIPT) ||
              bool_decide (type c = WINGRR_ENGINE_TYPESCRIPT) = true)
    by (by destruct (type c)).
  rewrite B. clear B.
  run (uninitialised_run s 4096).
  destruct (uv_os_getenv_save (proc s)) as (rc & n & G).
  run (query_run (fun q => uv_os_getenv q "NODE_PATH"
                     {| extent := 4096; text := stack_residue (proc s) |} 4096)
                 s _ G).
  run (c_str_run s w wd Hmw).
  run (uv_os_setenv_run s "NODE_PATH" wd).
  set (s1 := with_proc _ s).
  assert (Hs : c_strs (take (Z.to_nat (Z.of_nat (length (node_argv c)) - 1))
                        (node_argv c)) s1
               = Returned (expected_args (type c) prog) s1 [])
    by (by apply c_strs_node_argv with p).
  rewrite (spec_node_args_length (type c) prog c eq_refl) in Hs |- *.
  run (call_node_main_run s1 _ _ _ r p' Hs Hn).
  run (uv_os_setenv_run (with_proc p' s1) "NODE_PATH" (saved_search_path (proc s))).
  by destruct s.
Qed.

(** The adapter branches all have the same shape. *)
Lemma adapter_branch_run (s : state R) c k p w :
  spec_route (type c) = external_adapter k ->
  program c = Some p -> workdir c = Some w ->
  wingrr_exec_body X c s = run_engine X k (Some w) (Some p) s.
Proof.
  intros Hr Hp Hw. unfold wingrr_exec_body. rewrite Hp, Hw.
  run (c_assert_run s (bool_decide (Some p <> nullptr)) eq_refl).
  run (c_assert_run s (bool_decide (Some w <> nullptr)) eq_refl).
  rewrite !prepend_nil.
  destruct (type c); simpl in Hr; inversion Hr; subst k; done.
Qed.

(** *** The setters on a live, idle context *)

Lemma with_program_same c : with_program (program c) c = c.
Proof. by destruct c. Qed.

Lemma with_workdir_same c : with_workdir (workdir c) c = c.
Proof. by destruct c. Qed.

Lemma wingrr_set_program_run (s : state R) h c p :
  contexts s !! h = Some c -> mutex c = false ->
  wingrr_set_program X (Some h) p s =
    Returned () (with_contexts (<[h:=with_program p c]> (contexts s)) s)
             (if bool_decide (program c = p) then []
              else [ev_store h f_program p]).
Proof.
  intros E F. unfold wingrr_set_program. simpl ptr.
  run (c_assert_run s (bool_decide (Some h <> nullptr)) eq_refl).
  run (ret_run s h). unfold lock_guard.
  run (lock_run s h c E F).
  set (s1 := with_contexts _ s).
  assert (L1 : contexts s1 !! h = Some (with_mutex true c))
    by apply lookup_insert_eq.
  rewrite bind_assoc. run (load_run s1 h _ L1).
  change (program (with_mutex true c)) with (program c).
  destruct (bool_decide (program c = p)) eqn:D.
  - apply bool_decide_eq_true in D. subst p.
    run (ret_run s1 ()). run (unlock_run s1 h _ L1). simpl.
    f_equal. unfold s1, with_contexts. simpl. f_equal.
    by rewrite insert_insert_eq, with_mutex_twice, (with_mutex_free c F),
      with_program_same.
  - rewrite bind_assoc. run (store_run s1 h _ (with_program p (with_mutex true c)) L1).
    set (s2 := with_contexts _ s1).
    assert (L2 : contexts s2 !! h = Some (with_program p (with_mutex true c)))
      by apply lookup_insert_eq.
    run (emit_run s2 (ev_store h f_program p)).
    run (unlock_run s2 h _ L2). simpl.
    f_equal. unfold s2, s1, with_contexts. simpl. f_equal.
    rewrite !insert_insert_eq. f_equal.
    destruct c; simpl in *; by subst.
Qed.

Lemma wingrr_set_workdir_run (s : state R) h c w :
  contexts s !! h = Some c -> mutex c = false ->
  wingrr_set_workdir X (Some h) w s =
    Returned () (with_contexts (<[h:=with_workdir w c]> (contexts s)) s)
             (if bool_decide (workdir c = w) then []
              else [ev_store h f_workdir w]).
Proof.
  intros E F. unfold wingrr_set_workdir. simpl ptr.
  run (c_assert_run s (bool_decide (Some h <> nullptr)) eq_refl).
  run (ret_run s h). unfold lock_guard.
  run (lock_run s h c E F).
  set (s1 := with_contexts _ s).
  assert (L1 : contexts s1 !! h = Some (with_mutex true c))
    by apply lookup_insert_eq.
  rewrite bind_assoc. run (load_run s1 h _ L1).
  change (workdir (with_mutex true c)) with (workdir c).
  destruct (bool_decide (workdir c = w)) eqn:D.
  - apply bool_decide_eq_true in D. subst w.
    run (ret_run s1 ()). run (unlock_run s1 h _ L1). simpl.
    f_equal. unfold s1, with_contexts. simpl. f_equal.
    by rewrite insert_insert_eq, with_mutex_twice, (with_mutex_free c F),
      with_workdir_same.
  - rewrite bind_assoc. run (store_run s1 h _ (with_workdir w (with_mutex true c)) L1).
    set (s2 := with_contexts _ s1).
    assert (L2 : contexts s2 !! h = Some (with_workdir w (with_mutex true c)))
      by apply lookup_insert_eq.
    run (emit_run s2 (ev_store h f_workdir w)).
    run (unlock_run s2 h _ L2). simpl.
    f_equal. unfold s2, s1, with_contexts. simpl. f_equal.
    rewrite !insert_insert_eq. f_equal.
    destruct c; simpl in *; by subst.
Qed.

(** A setter that comes back was called on a live, idle context. *)
Lemma wingrr_set_program_returned (s s' : state R) instance p t :
  wingrr_set_program X instance p s = Returned () s' t ->
  exists h c, instance = Some h /\ contexts s !! h = Some c /\ mutex c = false.
Proof.
  intros E. destruct instance as [h|]; [|done].
  destruct (contexts s !! h) as [c|] eqn:L.
  - destruct (mutex c) eqn:F; [|by exists h, c].
    revert E. unfold wingrr_set_program. simpl ptr.
    run (c_assert_run s (bool_decide (Some h <> nullptr)) eq_refl).
    run (ret_run s h). unfold lock_guard, mbind at 1, exec_bind at 1.
    by rewrite (lock_held s h c L F).
  - revert E. unfold wingrr_set_program. simpl ptr.
    run (c_assert_run s (bool_decide (Some h <> nullptr)) eq_refl).
    run (ret_run s h). unfold lock_guard, mbind at 1, exec_bind at 1.
    by rewrite (lock_dangling s h L).
Qed.

Lemma wingrr_set_workdir_returned (s s' : state R) instance w t :
  wingrr_set_workdir X instance w s = Returned () s' t ->
  exists h c, instance = Some h /\ contexts s !! h = Some c /\ mutex c = false.
Proof.
  intros E. destruct instance as [h|]; [|done].
  destruct (contexts s !! h) as [c|] eqn:L.
  - destruct (mutex c) eqn:F; [|by exists h, c].
    revert E. unfold wingrr_set_workdir. simpl ptr.
    run (c_assert_run s (bool_decide (Some h <> nullptr)) eq_refl).
    run (ret_run s h). unfold lock_guard, mbind at 1, exec_bind at 1.
    by rewrite (lock_held s h c L F).
  - revert E. unfold wingrr_set_workdir. simpl ptr.
    run (c_assert_run s (bool_decide (Some h <> nullptr)) eq_refl).
    run (ret_run s h). unfold lock_guard, mbind at 1, exec_bind at 1.
    by rewrite (lock_dangling s h L).
Qed.

(** *** Where [abort()] can come from *)

Lemma never_aborts_bind {A B} (m : exec_monad R A) (k : A -> exec_monad R B) :
  never_aborts m -> (forall a, never_aborts (k a)) -> never_aborts (m ≫= k).
Proof.
  intros Hm Hk s t. unfold mbind, exec_bind.
  destruct (m s) as [a s1 t1| | |] eqn:E; try done.
  - destruct (k a s1) eqn:E1; simpl; try done. by apply Hk in E1.
  - by apply Hm in E.
Qed.

Lemma never_aborts_ret {A} (a : A) : never_aborts (mret a : exec_monad R A).
Proof. done. Qed.

Lemma never_aborts_emit e : never_aborts (emit e : exec_monad R unit).
Proof. done. Qed.

Lemma never_aborts_foreign {A} (f : process R -> option (A * process R)) :
  never_aborts (foreign f).
Proof. intros s t. unfold foreign. by destruct (f (proc s)) as [[a q]|]. Qed.

Lemma never_aborts_query {A} (f : process R -> option A) : never_aborts (query f).
Proof. intros s t. unfold query. by destruct (f (proc s)). Qed.

Lemma never_aborts_c_str q : never_aborts (c_str q : exec_monad R string).
Proof.
  intros s t. unfold c_str. destruct q as [a|]; [|done].
  by destruct (memory (proc s) !! a).
Qed.

Lemma never_aborts_uninitialised n : never_aborts (uninitialised n : exec_monad R _).
Proof. done. Qed.

Lemma never_aborts_uv_os_setenv name value :
  never_aborts (uv_os_setenv name value : exec_monad R _).
Proof. done. Qed.

Lemma never_aborts_c_strs l : never_aborts (c_strs l : exec_monad R _).
Proof.
  induction l as [|a l IH]; simpl; [done|].
  apply never_aborts_bind.
  - destruct a; [apply never_aborts_ret | apply never_aborts_c_str].
  - intros v. apply never_aborts_bind; [exact IH|]. intros r. apply never_aborts_ret.
Qed.

Lemma never_aborts_call_node_main argc argv :
  never_aborts (call_node_main X argc argv).
Proof.
  unfold call_node_main.
  apply never_aborts_bind; [apply never_aborts_c_strs|intros args].
  apply never_aborts_bind; [apply never_aborts_emit|intros _].
  apply never_aborts_foreign.
Qed.

Lemma never_aborts_run_engine k w p : never_aborts (run_engine X k w p).
Proof.
  unfold run_engine.
  repeat first
    [ apply never_aborts_ret | apply never_aborts_emit | apply never_aborts_foreign
    | apply never_aborts_c_str
    | apply never_aborts_bind; [|intros ?]
    | match goal with |- never_aborts (let '(_, _) := ?x in _) => destruct x end ].
Qed.

(** Once both assertions have passed, nothing in the body aborts. *)
Lemma wingrr_exec_body_never_aborts c :
  program c <> nullptr -> workdir c <> nullptr ->
  never_aborts (wingrr_exec_body X c).
Proof.
  intros Hp Hw. unfold wingrr_exec_body.
  rewrite (bool_decide_eq_true_2 _ Hp), (bool_decide_eq_true_2 _ Hw).
  do 2 (apply never_aborts_bind; [done|intros _]).
  repeat match goal with
         | |- never_aborts (if ?b then _ else _) => destruct b
         end;
    try apply never_aborts_run_engine; [|apply never_aborts_ret].
  repeat first
    [ apply never_aborts_ret | apply never_aborts_uninitialised
    | apply never_aborts_query | apply never_aborts_c_str
    | apply never_aborts_uv_os_setenv | apply never_aborts_call_node_main
    | apply never_aborts_bind; [|intros ?]
    | match goal with |- never_aborts (let '(_, _) := ?x in _) => destruct x end ].
Qed.

(** ** The claims about [wingrr_exec] *)

(** C1. Routing: on a configured context the dispatcher calls exactly one
    path, the one the engine type selects, and hands back that path's
    status as it is.  For an adapter the constructor receives the workdir
    string and [execute] the program string, unchanged; with engine type
    Python, program "hello.py" and workdir "/tmp/scripts" the call returns
    what the Python adapter's [execute("hello.py")] returned. *)
Theorem C1_exec_routes_to_one_path (s : state R) h c p w prog wd r q' :
  contexts s !! h = Some c -> mutex c = false ->
  program c = Some p -> workdir c = Some w ->
  memory (proc s) !! w = Some wd ->
  path_answers X (type c) wd p prog (proc s) r q' ->
  exists s' t,
    wingrr_exec X (Some h) s = Returned r s' t /\
    invocations t = [spec_route (type c)] /\
    (forall k, spec_route (type c) = external_adapter k ->
       t = [ev_construct k wd; ev_execute k prog; ev_destruct k] /\ proc s' = q') /\
    (type c = WINGRR_ENGINE_PYTHON -> wd = "/tmp/scripts" -> prog = "hello.py" ->
       t = [ev_construct PythonEngine "/tmp/scripts";
            ev_execute PythonEngine "hello.py"; ev_destruct PythonEngine]).
Proof.
  intros E F Hp Hw Hmw Hans. rewrite (wingrr_exec_run s h c E F).
  unfold path_answers in Hans.
  destruct (spec_route (type c)) as [|k] eqn:Hr.
  - destruct Hans as [Hmp Hn].
    rewrite (node_branch_run s c p w prog wd r q' Hr Hp Hw Hmp Hmw Hn).
    eexists _, _. split; [done|]. split; [done|]. split; [done|].
    intros Ht. by rewrite Ht in Hr.
  - destruct Hans as (e & p1 & e' & p2 & Hnew & Hmp & Hexe & Hdel).
    rewrite (adapter_branch_run s c k p w Hr Hp Hw).
    rewrite (run_engine_run s k w p wd prog e p1 r e' p2 q' Hmw Hnew Hmp Hexe Hdel).
    eexists _, _. split; [done|]. split; [done|]. split.
    + intros k' Hk'. by inversion Hk'.
    + intros Ht -> ->. rewrite Ht in Hr. by inversion Hr.
Qed.

(** C3. Executing a context whose program or workdir is unset ends in
    [abort()] before any foreign call is made: nothing is returned.  With
    both set, no execution ends in [abort()]. *)
Theorem C3_exec_precondition_is_fatal (s : state R) h c :
  contexts s !! h = Some c -> mutex c = false ->
  ((program c = nullptr \/ workdir c = nullptr) ->
     wingrr_exec X (Some h) s = Aborted []) /\
  (program c <> nullptr -> workdir c <> nullptr ->
     forall t, wingrr_exec X (Some h) s <> Aborted t).
Proof.
  intros E F. rewrite (wingrr_exec_run s h c E F). split.
  - intros Hn. unfold wingrr_exec_body.
    destruct (program c) as [p|] eqn:Hp; [|done].
    destruct Hn as [Hn|Hn]; [done|]. by rewrite Hn.
  - intros Hp Hw t. by apply wingrr_exec_body_never_aborts.
Qed.

(** C4. The argument vector for the embedded runtime: for TypeScript the
    placeholder "wingrr" and the fixed flags, then "--require" and
    "ts-node/register/transpile-only", then the program; for JavaScript the
    same without the loader pair.  The vector ends with a null pointer that
    [argc] does not count, and the runtime is called with these strings. *)
Theorem C4_node_argument_vector (s : state R) c p prog :
  program c = Some p -> memory (proc s) !! p = Some prog ->
  (type c = WINGRR_ENGINE_TYPESCRIPT ->
     node_argv c = (Literal <$> fixed_flags ++ loader_pair)
                   ++ [Pointer (Some p); Pointer nullptr] /\
     c_strs (take (Z.to_nat (Z.of_nat (length (node_argv c)) - 1)) (node_argv c)) s
     = Returned (fixed_flags ++ loader_pair ++ [prog]) s []) /\
  (type c = WINGRR_ENGINE_JAVASCRIPT ->
     node_argv c = (Literal <$> fixed_flags)
                   ++ [Pointer (Some p); Pointer nullptr] /\
     c_strs (take (Z.to_nat (Z.of_nat (length (node_argv c)) - 1)) (node_argv c)) s
     = Returned (fixed_flags ++ [prog]) s []) /\
  (forall h w wd r q',
     contexts s !! h = Some c -> mutex c = false ->
     spec_route (type c) = module_runtime ->
     workdir c = Some w -> memory (proc s) !! w = Some wd ->
     runtime_answers X (expected_args (type c) prog) wd (proc s) r q' ->
     exists s' t,
       wingrr_exec X (Some h) s = Returned r s' t /\
       ev_node_main (Z.of_nat (length (expected_args (type c) prog)))
                    (expected_args (type c) prog) ∈ t).
Proof.
  intros Hp Hm. split; [|split].
  - intros Ht. split.
    + unfold node_argv. by rewrite Ht, Hp.
    + rewrite (c_strs_node_argv s c p prog Hp Hm). unfold expected_args.
      by rewrite Ht.
  - intros Ht. split.
    + unfold node_argv. by rewrite Ht, Hp.
    + rewrite (c_strs_node_argv s c p prog Hp Hm). unfold expected_args.
      by rewrite Ht.
  - intros h w wd r q' E F Hr Hw Hmw Hn.
    rewrite (wingrr_exec_run s h c E F).
    rewrite (node_branch_run s c p w prog wd r q' Hr Hp Hw Hm Hmw Hn).
    eexists _, _. split; [done|]. set_solver.
Qed.

(** C9. A context fresh from the factory has a free mutex and null
    program and workdir, whatever the engine type; executing it right away
    ends in [abort()]. *)
Theorem C9_fresh_context_is_unconfigured (t : wingrr_engine_type_t) (s : state R) :
  exists h s',
    wingrr_prep X t s = Returned (Some h) s' [] /\
    contexts s !! h = None /\
    contexts s' !! h =
      Some {| mutex := false; program := nullptr; workdir := nullptr; type := t |} /\
    wingrr_exec X (Some h) s' = Aborted [] /\
    (wingrr_prep X t ≫= wingrr_exec X) s = Aborted [].
Proof.
  set (h := fresh (dom (contexts s))).
  set (c := {| mutex := false; program := nullptr; workdir := nullptr; type := t |}).
  set (s' := with_contexts (<[h:=c]> (contexts s)) s).
  assert (L : contexts s' !! h = Some c) by apply lookup_insert_eq.
  assert (A : wingrr_exec X (Some h) s' = Aborted []).
  { by rewrite (wingrr_exec_run s' h c L eq_refl). }
  exists h, s'. split; [done|]. split.
  { apply not_elem_of_dom. apply is_fresh. }
  split; [done|]. split; [done|].
  unfold mbind, exec_bind. simpl. fold h c s'. by rewrite A.
Qed.

(** C10. In the module-runtime branch the restore step calls [setenv] on
    NODE_PATH with whatever the save buffer holds, so the variable is set
    when [wingrr_exec] returns; if it was unset before the call it is now
    set to what the uninitialised buffer happened to contain. *)
Theorem C10_restore_always_sets_search_path (s : state R) h c p w prog wd r q' :
  contexts s !! h = Some c -> mutex c = false ->
  spec_route (type c) = module_runtime ->
  program c = Some p -> workdir c = Some w ->
  memory (proc s) !! p = Some prog -> memory (proc s) !! w = Some wd ->
  runtime_answers X (expected_args (type c) prog) wd (proc s) r q' ->
  exists s' t,
    wingrr_exec X (Some h) s = Returned r s' t /\
    last t = Some (ev_setenv "NODE_PATH" (saved_search_path (proc s))) /\
    environ (proc s') !! "NODE_PATH" = Some (saved_search_path (proc s)) /\
    (environ (proc s) !! "NODE_PATH" = None ->
       environ (proc s') !! "NODE_PATH" = Some (stack_residue (proc s))).
Proof.
  intros E F Hr Hp Hw Hmp Hmw Hn.
  rewrite (wingrr_exec_run s h c E F).
  rewrite (node_branch_run s c p w prog wd r q' Hr Hp Hw Hmp Hmw Hn).
  eexists _, _. split; [done|]. split; [done|]. simpl.
  rewrite lookup_insert_eq. split; [done|].
  intros Hnone. unfold saved_search_path. by rewrite Hnone.
Qed.

(** When the value of NODE_PATH fits the save buffer, it is back in place
    after the call, whatever the runtime did to the variable. *)
Lemma search_path_restored_when_it_fits (s : state R) h c p w prog wd r q' V :
  contexts s !! h = Some c -> mutex c = false ->
  spec_route (type c) = module_runtime ->
  program c = Some p -> workdir c = Some w ->
  memory (proc s) !! p = Some prog -> memory (proc s) !! w = Some wd ->
  runtime_answers X (expected_args (type c) prog) wd (proc s) r q' ->
  environ (proc s) !! "NODE_PATH" = Some V -> (strlen V < 4096)%N ->
  exists s' t,
    wingrr_exec X (Some h) s = Returned r s' t /\
    environ (proc s') !! "NODE_PATH" = Some V.
Proof.
  intros E F Hr Hp Hw Hmp Hmw Hn HV Hlen.
  rewrite (wingrr_exec_run s h c E F).
  rewrite (node_branch_run s c p w prog wd r q' Hr Hp Hw Hmp Hmw Hn).
  eexists _, _. split; [done|]. simpl. rewrite lookup_insert_eq.
  unfold saved_search_path. rewrite HV.
  by rewrite (proj2 (N.leb_gt _ _) Hlen).
Qed.

(** ** The claims about the setters and the life of a context *)

(** C6. Setting the program (or the workdir) twice to the same pointer is
    the same as setting it once: same outcome, same state, same stores,
    hence the same behaviour of whatever follows.  Setting a field to the
    pointer it already holds compares, stores nothing and leaves the state
    as it was. *)
Theorem C6_repeated_set_is_single_set (s : state R) instance v :
  (wingrr_set_program X instance v;; wingrr_set_program X instance v) s
    = wingrr_set_program X instance v s /\
  (wingrr_set_workdir X instance v;; wingrr_set_workdir X instance v) s
    = wingrr_set_workdir X instance v s /\
  (forall B (k : unit -> exec_monad R B),
     ((wingrr_set_program X instance v;; wingrr_set_program X instance v) ≫= k) s
       = (wingrr_set_program X instance v ≫= k) s /\
     ((wingrr_set_workdir X instance v;; wingrr_set_workdir X instance v) ≫= k) s
       = (wingrr_set_workdir X instance v ≫= k) s) /\
  (forall h c, instance = Some h -> contexts s !! h = Some c -> mutex c = false ->
     (program c = v -> wingrr_set_program X instance v s = Returned () s []) /\
     (workdir c = v -> wingrr_set_workdir X instance v s = Returned () s [])).
Proof.
  assert (P : (wingrr_set_program X instance v;; wingrr_set_program X instance v) s
              = wingrr_set_program X instance v s);
    [|assert (W : (wingrr_set_workdir X instance v;; wingrr_set_workdir X instance v) s
                  = wingrr_set_workdir X instance v s);
      [|split; [exact P|split; [exact W|split]]]].
  - destruct (wingrr_set_program X instance v s) as [[] s1 t| | |] eqn:E;
      try (unfold mbind, exec_bind; by rewrite E).
    destruct (wingrr_set_program_returned _ _ _ _ _ E) as (h & c & -> & L & F).
    rewrite (wingrr_set_program_run s h c v L F) in E.
    run (wingrr_set_program_run s h c v L F).
    set (s2 := with_contexts _ s) in *.
    assert (L2 : contexts s2 !! h = Some (with_program v c))
      by apply lookup_insert_eq.
    rewrite (wingrr_set_program_run s2 h _ v L2 F). simpl.
    rewrite (bool_decide_eq_true_2 (v = v) eq_refl), app_nil_r.
    inversion E; subst. f_equal.
    unfold s2, with_contexts. simpl. f_equal. by rewrite insert_insert_eq.
  - destruct (wingrr_set_workdir X instance v s) as [[] s1 t| | |] eqn:E;
      try (unfold mbind, exec_bind; by rewrite E).
    destruct (wingrr_set_workdir_returned _ _ _ _ _ E) as (h & c & -> & L & F).
    rewrite (wingrr_set_workdir_run s h c v L F) in E.
    run (wingrr_set_workdir_run s h c v L F).
    set (s2 := with_contexts _ s) in *.
    assert (L2 : contexts s2 !! h = Some (with_workdir v c))
      by apply lookup_insert_eq.
    rewrite (wingrr_set_workdir_run s2 h _ v L2 F). simpl.
    rewrite (bool_decide_eq_true_2 (v = v) eq_refl), app_nil_r.
    inversion E; subst. f_equal.
    unfold s2, with_contexts. simpl. f_equal. by rewrite insert_insert_eq.
  - intros B k. split.
    + unfold mbind at 1, exec_bind at 1. rewrite P. done.
    + unfold mbind at 1, exec_bind at 1. rewrite W. done.
  - intros h c -> L F. split; intros <-.
    + rewrite (wingrr_set_program_run s h c _ L F).
      rewrite bool_decide_eq_true_2 by done.
      by rewrite with_program_same, (insert_id _ _ _ L), with_contexts_same.
    + rewrite (wingrr_set_workdir_run s h c _ L F).
      rewrite bool_decide_eq_true_2 by done.
      by rewrite with_workdir_same, (insert_id _ _ _ L), with_contexts_same.
Qed.

(** The comparison in the setters is on addresses: another pointer is
    stored, whatever string it designates. *)
Lemma wingrr_set_program_other_address (s : state R) h c v :
  contexts s !! h = Some c -> mutex c = false -> program c <> v ->
  wingrr_set_program X (Some h) v s =
    Returned () (with_contexts (<[h:=with_program v c]> (contexts s)) s)
             [ev_store h f_program v].
Proof.
  intros L F N. rewrite (wingrr_set_program_run s h c v L F).
  by rewrite bool_decide_eq_false_2.
Qed.

Lemma calls_of_app t1 t2 : calls_of (t1 ++ t2) = calls_of t1 ++ calls_of t2.
Proof. apply List.filter_app. Qed.

Lemma observe_prepend (t : list event) (o : outcome R Z) :
  calls_of t = [] -> observe (prepend t o) = observe o.
Proof. intros E. destruct o; simpl; by rewrite ?calls_of_app, ?E. Qed.

Lemma observe_on_contexts H (o : outcome R Z) : observe (on_contexts H o) = observe o.
Proof. by destruct o. Qed.

(** Configuring a live, idle context and executing it behaves as the body
    of [wingrr_exec] does on the new values; the rest of the object store
    and the old values of the two fields play no part. *)
Lemma reconfigure_and_exec_run (s : state R) h c p w :
  contexts s !! h = Some c -> mutex c = false ->
  observe (reconfigure_and_exec X (Some h) p w s) =
  observe (wingrr_exec_body X
             {| mutex := false; program := p; workdir := w; type := type c |}
             (State (proc s) ∅)).
Proof.
  intros L F. unfold reconfigure_and_exec.
  run (wingrr_set_program_run s h c p L F).
  set (s1 := with_contexts _ s).
  assert (L1 : contexts s1 !! h = Some (with_program p c))
    by apply lookup_insert_eq.
  run (wingrr_set_workdir_run s1 h _ w L1 F).
  set (s2 := with_contexts _ s1).
  assert (L2 : contexts s2 !! h = Some (with_workdir w (with_program p c)))
    by apply lookup_insert_eq.
  rewrite (wingrr_exec_run s2 h _ L2 F).
  rewrite !observe_prepend by (by case_bool_decide).
  assert (C : with_workdir w (with_program p c) =
              {| mutex := false; program := p; workdir := w; type := type c |})
    by (destruct c; simpl in *; by subst).
  rewrite C.
  change s2 with (State (proc s) (contexts s2)).
  rewrite (proc_only_wingrr_exec_body _ (proc s) ∅ (contexts s2)).
  apply observe_on_contexts.
Qed.

(** C7. A call of [wingrr_exec] that returns leaves every context as it
    was: program, workdir and engine type are not consumed.  Setting a new
    program and workdir on the context and executing it again behaves as a
    fresh context of the same engine type given the same values: same
    outcome, same status, same process afterwards, same foreign calls. *)
Theorem C7_exec_preserves_context (s s' : state R) instance r t :
  wingrr_exec X instance s = Returned r s' t ->
  contexts s' = contexts s /\
  (forall h c p' w',
     instance = Some h -> contexts s !! h = Some c ->
     contexts s' !! h = Some c /\
     observe (reconfigure_and_exec X (Some h) p' w' s') =
     observe (fresh_and_exec X (type c) p' w' s')).
Proof.
  intros E.
  destruct (wingrr_exec_returned s s' instance r t E)
    as (h & c & -> & L & F & _ & HC).
  split; [done|]. intros h' c' p' w' [= <-] L'.
  rewrite L in L'. inversion L'; subst c'. clear L'.
  assert (Ls : contexts s' !! h = Some c) by (by rewrite HC).
  split; [done|].
  rewrite (reconfigure_and_exec_run s' h c p' w' Ls F).
  unfold fresh_and_exec, mbind at 1, exec_bind at 1, wingrr_prep.
  rewrite prepend_nil.
  set (h2 := fresh (dom (contexts s'))).
  set (c0 := {| mutex := false; program := nullptr; workdir := nullptr;
                type := type c |}).
  set (s0 := with_contexts (<[h2:=c0]> (contexts s')) s').
  assert (L0 : contexts s0 !! h2 = Some c0) by apply lookup_insert_eq.
  by rewrite (reconfigure_and_exec_run s0 h2 c0 p' w' L0 eq_refl).
Qed.

(** No call of the interface changes the engine type of any context. *)
Lemma run_call_keeps_types (s s' : state R) call t :
  run_call X call s = Returned () s' t ->
  forall h c, contexts s !! h = Some c ->
              exists c', contexts s' !! h = Some c' /\ type c' = type c.
Proof.
  intros E h c L. destruct call as [instance p|instance w|instance]; simpl in E.
  - destruct (wingrr_set_program_returned _ _ _ _ _ E) as (h0 & c0 & -> & L0 & F).
    rewrite (wingrr_set_program_run s h0 c0 p L0 F) in E.
    inversion E; subst. simpl.
    destruct (decide (h0 = h)) as [->|N].
    + rewrite lookup_insert_eq. rewrite L0 in L. inversion L; subst. by eexists.
    + rewrite lookup_insert_ne by done. by exists c.
  - destruct (wingrr_set_workdir_returned _ _ _ _ _ E) as (h0 & c0 & -> & L0 & F).
    rewrite (wingrr_set_workdir_run s h0 c0 w L0 F) in E.
    inversion E; subst. simpl.
    destruct (decide (h0 = h)) as [->|N].
    + rewrite lookup_insert_eq. rewrite L0 in L. inversion L; subst. by eexists.
    + rewrite lookup_insert_ne by done. by exists c.
  - unfold mbind, exec_bind in E.
    destruct (wingrr_exec X instance s) as [r s1 t1| | |] eqn:E1; try done.
    simpl in E. inversion E; subst.
    destruct (wingrr_exec_returned _ _ _ _ _ E1) as (_ & _ & _ & _ & _ & _ & HC).
    rewrite HC. by exists c.
Qed.

Lemma run_calls_keep_types calls : forall (s s' : state R) t,
  run_calls X calls s = Returned () s' t ->
  forall h c, contexts s !! h = Some c ->
              exists c', contexts s' !! h = Some c' /\ type c' = type c.
Proof.
  induction calls as [|call calls IH]; intros s s' t E h c L.
  - inversion E; subst. by exists c.
  - simpl in E. unfold mbind, exec_bind in E.
    destruct (run_call X call s) as [[] s1 t1| | |] eqn:E1; try done.
    destruct (run_calls X calls s1) as [[] s2 t2| | |] eqn:E2; try done.
    simpl in E. inversion E; subst.
    destruct (run_call_keeps_types _ _ _ _ E1 h c L) as (c1 & L1 & T1).
    destruct (IH _ _ _ E2 h c1 L1) as (c2 & L2 & T2).
    exists c2. split; [done|]. by rewrite T2.
Qed.

(** C8. The engine type is written by the factory and by nothing else:
    after any sequence of [wingrr_set_program], [wingrr_set_workdir] and
    [wingrr_exec] calls, on this or on other contexts, a context created
    with engine type [t] still has engine type [t]. *)
Theorem C8_engine_type_is_fixed (s s0 s1 : state R) ty instance t0 calls t1 :
  wingrr_prep X ty s = Returned instance s0 t0 ->
  run_calls X calls s0 = Returned () s1 t1 ->
  exists h c, instance = Some h /\ contexts s1 !! h = Some c /\ type c = ty.
Proof.
  intros E0 E1. unfold wingrr_prep in E0. inversion E0; subst. clear E0.
  set (h := fresh (dom (contexts s))) in *.
  set (c0 := {| mutex := false; program := nullptr; workdir := nullptr;
                type := ty |}) in *.
  assert (L0 : contexts (with_contexts (<[h:=c0]> (contexts s)) s) !! h = Some c0)
    by apply lookup_insert_eq.
  destruct (run_calls_keep_types calls _ _ _ E1 h c0 L0) as (c & L & T).
  by exists h, c.
Qed.

End Dispatcher.

(** ** The runtime root *)

Section PathResolver.

Context {R : Type}.

Lemma strlen_zero (v : string) : strlen v = 0%N -> v = EmptyString.
Proof. destruct v; [done|]. unfold strlen. simpl. lia. Qed.

(** What [uv_os_getenv] leaves in the zeroed buffer of
    [_get_runtime_path], by the state of the override. *)
Lemma getenv_root_absent (p : process R) :
  environ p !! "WINGRR_ROOT" = None ->
  uv_os_getenv p "WINGRR_ROOT" {| extent := 4096; text := EmptyString |} 4096
  = Some (UV_ENOENT, {| extent := 4096; text := EmptyString |}, 4096%N).
Proof. intros E. unfold uv_os_getenv. simpl. by rewrite E. Qed.

Lemma getenv_root_too_long (p : process R) v :
  environ p !! "WINGRR_ROOT" = Some v -> (4096 <= strlen v)%N ->
  uv_os_getenv p "WINGRR_ROOT" {| extent := 4096; text := EmptyString |} 4096
  = Some (UV_ENOBUFS, {| extent := 4096; text := EmptyString |}, (strlen v + 1)%N).
Proof.
  intros E L. unfold uv_os_getenv. simpl. rewrite E.
  by rewrite (proj2 (N.leb_le _ _) L).
Qed.

Lemma getenv_root_fits (p : process R) v :
  environ p !! "WINGRR_ROOT" = Some v -> (strlen v < 4096)%N ->
  uv_os_getenv p "WINGRR_ROOT" {| extent := 4096; text := EmptyString |} 4096
  = Some (0, {| extent := 4096; text := v |}, strlen v).
Proof.
  intros E L. unfold uv_os_getenv, fill. simpl. rewrite E.
  rewrite (proj2 (N.leb_gt _ _) L).
  assert (G : (strlen v + 1 <=? 4096)%N = true) by (apply N.leb_le; lia).
  by rewrite G.
Qed.

(** A directory shorter than the buffer is reported whatever size, 4096 or
    more, [uv_cwd] is told. *)
Lemma uv_cwd_short (p : process R) dir size :
  cwd p = cwd_at dir -> (strlen dir < 4096)%N -> (4096 <= size)%N ->
  uv_cwd p {| extent := 4096; text := EmptyString |} size
  = Some (0, {| extent := 4096; text := drop_trailing_slash dir |},
          strlen (drop_trailing_slash dir)).
Proof.
  intros C L S. unfold uv_cwd, getcwd, fill, UV__PATH_MAX. rewrite C. simpl.
  assert (Z : (size =? 0)%N = false) by (apply N.eqb_neq; lia).
  assert (A : (strlen dir <? 4096)%N = true) by (by apply N.ltb_lt).
  assert (B : (strlen dir <? size)%N = true) by (apply N.ltb_lt; lia).
  assert (G : (strlen dir + 1 <=? 4096)%N = true) by (apply N.leb_le; lia).
  by rewrite Z, A, B, G.
Qed.

(** What [_get_runtime_path] does once the fallback is taken. *)
Lemma runtime_path_fallback (p : process R) rc0 size :
  uv_os_getenv p "WINGRR_ROOT" {| extent := 4096; text := EmptyString |} 4096
  = Some (rc0, {| extent := 4096; text := EmptyString |}, size) ->
  size <> 0%N ->
  _get_runtime_path p =
    '(rc, buf, _) ← uv_cwd p {| extent := 4096; text := EmptyString |} size;
    if rc =? UV_ENOBUFS then Some "." else Some (text buf).
Proof.
  intros G Z. unfold _get_runtime_path. rewrite G. simpl.
  by rewrite (proj2 (N.eqb_neq _ _) Z).
Qed.

(** C5, as the code has it.  A non-empty override shorter than the
    4096-byte buffer is the root.  An empty override gives "." at once,
    the working directory is not asked.  With no override, or one of 4096
    bytes or more, and a working directory shorter than 4096 bytes, the
    root is that directory as [uv_cwd] reports it.  With no override and
    [uv_cwd] answering [UV_ENOBUFS], the root is ".".  Each of these
    branches hands a string to the caller and no error. *)
Theorem C5_runtime_root_chain (p : process R) :
  (forall v, environ p !! "WINGRR_ROOT" = Some v -> v <> EmptyString ->
             (strlen v < 4096)%N -> _get_runtime_path p = Some v) /\
  (environ p !! "WINGRR_ROOT" = Some EmptyString -> _get_runtime_path p = Some ".") /\
  (forall dir, environ p !! "WINGRR_ROOT" = None -> cwd p = cwd_at dir ->
               (strlen dir < 4096)%N ->
               _get_runtime_path p = Some (drop_trailing_slash dir)) /\
  (forall v dir, environ p !! "WINGRR_ROOT" = Some v -> (4096 <= strlen v)%N ->
                 cwd p = cwd_at dir -> (strlen dir < 4096)%N ->
                 _get_runtime_path p = Some (drop_trailing_slash dir)) /\
  (forall b n, environ p !! "WINGRR_ROOT" = None ->
               uv_cwd p {| extent := 4096; text := EmptyString |} 4096
               = Some (UV_ENOBUFS, b, n) ->
               _get_runtime_path p = Some ".").
Proof.
  split; [|split; [|split; [|split]]].
  - intros v E Hne Hlen. unfold _get_runtime_path.
    rewrite (getenv_root_fits p v E Hlen). simpl.
    destruct (strlen v =? 0)%N eqn:Z.
    + apply N.eqb_eq, strlen_zero in Z. done.
    + by rewrite bool_decide_eq_false_2.
  - intros E. unfold _get_runtime_path.
    by rewrite (getenv_root_fits p EmptyString E).
  - intros dir E C L.
    rewrite (runtime_path_fallback p _ _ (getenv_root_absent p E)) by done.
    by rewrite (uv_cwd_short p dir 4096 C L).
  - intros v dir E Lv C L.
    rewrite (runtime_path_fallback p _ _ (getenv_root_too_long p v E Lv)) by lia.
    rewrite (uv_cwd_short p dir (strlen v + 1) C L) by lia. done.
  - intros b n E U.
    rewrite (runtime_path_fallback p _ _ (getenv_root_absent p E)) by done.
    by rewrite U.
Qed.

(** When the working directory cannot be read for another reason than
    lack of space, what comes back is whatever the failed call left in the
    buffer. *)
Lemma runtime_root_when_cwd_is_unavailable (p : process R) err residue :
  environ p !! "WINGRR_ROOT" = None -> cwd p = cwd_unavailable err residue ->
  err <> UV_ERANGE ->
  _get_runtime_path p = Some (if err =? UV_ENOBUFS then "." else residue).
Proof.
  intros E C N.
  rewrite (runtime_path_fallback p _ _ (getenv_root_absent p E)) by done.
  unfold uv_cwd, getcwd. rewrite C. simpl.
  rewrite (proj2 (Z.eqb_neq _ _) N). simpl. by destruct (err =? UV_ENOBUFS).
Qed.


End PathResolver.

(** ** Worked examples on the demonstration host *)

Lemma C1_python_example :
  exists s' t,
    wingrr_exec demo_host (Some 1%positive)
      (demo_state ∅ WINGRR_ENGINE_PYTHON (Some 1%positive) (Some 2%positive))
    = Returned (demo_status PythonEngine) s' t /\
    invocations t = [external_adapter PythonEngine] /\
    t = [ev_construct PythonEngine "/tmp/scripts";
         ev_execute PythonEngine "hello.py"; ev_destruct PythonEngine].
Proof.
  destruct (C1_exec_routes_to_one_path demo_host
              (demo_state ∅ WINGRR_ENGINE_PYTHON (Some 1%positive) (Some 2%positive))
              1%positive
              {| mutex := false; program := Some 1%positive;
                 workdir := Some 2%positive; type := WINGRR_ENGINE_PYTHON |}
              1%positive 2%positive "hello.py" "/tmp/scripts"
              (demo_status PythonEngine) (demo_process ∅))
    as (s' & t & E & I & _ & P).
  - reflexivity.
  - reflexivity.
  - reflexivity.
  - reflexivity.
  - reflexivity.
  - exists "/tmp/scripts", (demo_process ∅), "/tmp/scripts", (demo_process ∅).
    repeat split; reflexivity.
  - exists s', t. split; [exact E|]. split; [exact I|].
    apply P; reflexivity.
Defined.

(** C2, at an input the code can receive: NODE_PATH holds 4096 characters.
    [uv_os_getenv] reports [UV_ENOBUFS] and writes nothing, the return code
    is not looked at, and the restore step sets the variable to what the
    uninitialised buffer held instead of the value it had. *)
Lemma C2_long_search_path_is_not_restored :
  let s := demo_state {[ "NODE_PATH" := long_value ]} WINGRR_ENGINE_JAVASCRIPT
                      (Some 3%positive) (Some 4%positive) in
  environ (proc s) !! "NODE_PATH" = Some long_value /\
  exists s' t,
    wingrr_exec demo_host (Some 1%positive) s = Returned 7 s' t /\
    environ (proc s') !! "NODE_PATH" = Some "junk" /\
    long_value <> "junk".
Proof.
  simpl. split; [reflexivity|].
  eexists _, _. split; [vm_compute; reflexivity|].
  split; [vm_compute; reflexivity|]. discriminate.
Qed.

Lemma C3_unconfigured_example :
  wingrr_exec demo_host (Some 1%positive)
    (demo_state ∅ WINGRR_ENGINE_GO nullptr (Some 2%positive)) = Aborted [] /\
  (forall t, wingrr_exec demo_host (Some 1%positive)
               (demo_state ∅ WINGRR_ENGINE_GO (Some 1%positive) (Some 2%positive))
             <> Aborted t).
Proof.
  split.
  - apply (C3_exec_precondition_is_fatal demo_host
             (demo_state ∅ WINGRR_ENGINE_GO nullptr (Some 2%positive)) 1%positive
             {| mutex := false; program := nullptr; workdir := Some 2%positive;
                type := WINGRR_ENGINE_GO |});
      [reflexivity | reflexivity | left; reflexivity].
  - apply (C3_exec_precondition_is_fatal demo_host
             (demo_state ∅ WINGRR_ENGINE_GO (Some 1%positive) (Some 2%positive))
             1%positive
             {| mutex := false; program := Some 1%positive;
                workdir := Some 2%positive; type := WINGRR_ENGINE_GO |});
      [reflexivity | reflexivity | discriminate | discriminate].
Defined.

Lemma C4_typescript_example :
  let c := {| mutex := false; program := Some 3%positive;
              workdir := Some 4%positive; type := WINGRR_ENGINE_TYPESCRIPT |} in
  let s := demo_state ∅ WINGRR_ENGINE_TYPESCRIPT (Some 3%positive) (Some 4%positive) in
  c_strs (take (Z.to_nat (Z.of_nat (length (node_argv c)) - 1)) (node_argv c)) s
  = Returned ["wingrr"; "--experimental-modules";
              "--experimental-wasi-unstable-preview1"; "--no-global-search-paths";
              "--no-experimental-fetch"; "--no-deprecation"; "--no-warnings";
              "--no-addons"; "--require"; "ts-node/register/transpile-only";
              "main.ts"] s [].
Proof.
  intros c s.
  exact (proj2 (proj1 (C4_node_argument_vector demo_host s c 3%positive "main.ts"
                         eq_refl eq_refl) eq_refl)).
Defined.

(** C5 as the specification words it fails on an empty override: the code
    answers "." and never asks for the working directory, which is there. *)
Lemma C5_empty_override_skips_cwd :
  environ (demo_process {[ "WINGRR_ROOT" := EmptyString ]}) !! "WINGRR_ROOT"
    = Some EmptyString /\
  cwd (demo_process {[ "WINGRR_ROOT" := EmptyString ]}) = cwd_at "/home/user" /\
  spec_resolveRuntimeRoot (demo_process {[ "WINGRR_ROOT" := EmptyString ]})
    = "/home/user" /\
  _get_runtime_path (demo_process {[ "WINGRR_ROOT" := EmptyString ]}) = Some "." /\
  _get_runtime_path (demo_process {[ "WINGRR_ROOT" := EmptyString ]})
    <> Some (spec_resolveRuntimeRoot (demo_process {[ "WINGRR_ROOT" := EmptyString ]})).
Proof. repeat split; try reflexivity. discriminate. Qed.

Lemma C5_chain_example :
  _get_runtime_path (demo_process {[ "WINGRR_ROOT" := "/opt/wing" ]}) = Some "/opt/wing" /\
  _get_runtime_path (demo_process {[ "WINGRR_ROOT" := EmptyString ]}) = Some "." /\
  _get_runtime_path (demo_process ∅) = Some "/home/user" /\
  _get_runtime_path (demo_process {[ "WINGRR_ROOT" := long_value ]}) = Some "/home/user" /\
  _get_runtime_path (deep_process 4096) = Some ".".
Proof.
  split; [|split; [|split; [|split]]].
  - destruct (C5_runtime_root_chain (demo_process {[ "WINGRR_ROOT" := "/opt/wing" ]}))
      as (Fits & _).
    apply Fits; [reflexivity | discriminate | reflexivity].
  - destruct (C5_runtime_root_chain (demo_process {[ "WINGRR_ROOT" := EmptyString ]}))
      as (_ & Empty & _).
    apply Empty. reflexivity.
  - destruct (C5_runtime_root_chain (demo_process ∅)) as (_ & _ & Absent & _).
    exact (Absent "/home/user" eq_refl eq_refl eq_refl).
  - destruct (C5_runtime_root_chain (demo_process {[ "WINGRR_ROOT" := long_value ]}))
      as (_ & _ & _ & Long & _).
    apply (Long long_value "/home/user");
      [vm_compute; reflexivity | vm_compute; discriminate | reflexivity | reflexivity].
  - destruct (C5_runtime_root_chain (deep_process 4096)) as (_ & _ & _ & _ & NoRoom).
    apply (NoRoom {| extent := 4096; text := "left" |} 4097%N);
      [reflexivity | vm_compute; reflexivity].
Defined.

Lemma C6_reset_example :
  let s := demo_state ∅ WINGRR_ENGINE_GO (Some 1%positive) (Some 2%positive) in
  wingrr_set_program demo_host (Some 1%positive) (Some 1%positive) s = Returned () s [] /\
  wingrr_set_workdir demo_host (Some 1%positive) (Some 2%positive) s = Returned () s [].
Proof.
  intros s. split.
  - apply (proj2 (proj2 (proj2 (C6_repeated_set_is_single_set demo_host s
                                  (Some 1%positive) (Some 1%positive))))
             1%positive
             {| mutex := false; program := Some 1%positive;
                workdir := Some 2%positive; type := WINGRR_ENGINE_GO |});
      reflexivity.
  - apply (proj2 (proj2 (proj2 (C6_repeated_set_is_single_set demo_host s
                                  (Some 1%positive) (Some 2%positive))))
             1%positive
             {| mutex := false; program := Some 1%positive;
                workdir := Some 2%positive; type := WINGRR_ENGINE_GO |});
      reflexivity.
Defined.

Lemma C7_reconfigure_example :
  let s := demo_state ∅ WINGRR_ENGINE_PYTHON (Some 1%positive) (Some 2%positive) in
  wingrr_exec demo_host (Some 1%positive) s
  = Returned 14 s [ev_construct PythonEngine "/tmp/scripts";
                   ev_execute PythonEngine "hello.py"; ev_destruct PythonEngine] /\
  observe (reconfigure_and_exec demo_host (Some 1%positive)
             (Some 3%positive) (Some 4%positive) s) =
  observe (fresh_and_exec demo_host WINGRR_ENGINE_PYTHON
             (Some 3%positive) (Some 4%positive) s).
Proof.
  intros s.
  assert (E : wingrr_exec demo_host (Some 1%positive) s
              = Returned 14 s [ev_construct PythonEngine "/tmp/scripts";
                               ev_execute PythonEngine "hello.py";
                               ev_destruct PythonEngine])
    by (vm_compute; reflexivity).
  split; [exact E|].
  exact (proj2 (proj2 (C7_exec_preserves_context demo_host s s (Some 1%positive)
                         14 _ E)
                  1%positive
                  {| mutex := false; program := Some 1%positive;
                     workdir := Some 2%positive; type := WINGRR_ENGINE_PYTHON |}
                  (Some 3%positive) (Some 4%positive) eq_refl eq_refl)).
Defined.

Lemma C8_sequence_example :
  let s := State (demo_process ∅) ∅ in
  let calls := [call_set_program (Some 1%positive) (Some 3%positive);
                call_set_workdir (Some 1%positive) (Some 4%positive);
                call_exec (Some 1%positive);
                call_set_program (Some 1%positive) (Some 1%positive);
                call_exec (Some 1%positive)] in
  exists s1 t1 h c,
    (wingrr_prep demo_host WINGRR_ENGINE_RUBY ≫= fun _ => run_calls demo_host calls) s
      = Returned () s1 t1 /\
    h = 1%positive /\ contexts s1 !! h = Some c /\ type c = WINGRR_ENGINE_RUBY.
Proof.
  intros s calls.
  destruct (run_calls demo_host calls
              (demo_state ∅ WINGRR_ENGINE_RUBY nullptr nullptr))
    as [[] s1 t1| | |] eqn:E; try (vm_compute in E; discriminate).
  destruct (C8_engine_type_is_fixed demo_host s
              (demo_state ∅ WINGRR_ENGINE_RUBY nullptr nullptr) s1
              WINGRR_ENGINE_RUBY (Some 1%positive) [] calls t1)
    as (h & c & Hh & L & T); [vm_compute; reflexivity | exact E |].
  exists s1, t1, h, c.
  split; [|split; [by inversion Hh|split; [exact L|exact T]]].
  rewrite (bind_returned (wingrr_prep demo_host WINGRR_ENGINE_RUBY) _ s
             (Some 1%positive) (demo_state ∅ WINGRR_ENGINE_RUBY nullptr nullptr) []
             eq_refl).
  rewrite prepend_nil. exact E.
Defined.

Lemma C10_unset_search_path_example :
  let s := demo_state ∅ WINGRR_ENGINE_JAVASCRIPT (Some 3%positive) (Some 4%positive) in
  environ (proc s) !! "NODE_PATH" = None /\
  exists s' t,
    wingrr_exec demo_host (Some 1%positive) s = Returned 7 s' t /\
    environ (proc s') !! "NODE_PATH" = Some "junk".
Proof.
  intros s. split; [reflexivity|].
  destruct (C10_restore_always_sets_search_path demo_host s 1%positive
              {| mutex := false; program := Some 3%positive;
                 workdir := Some 4%positive; type := WINGRR_ENGINE_JAVASCRIPT |}
              3%positive 4%positive "main.ts" "/srv/app" 7
              {| environ := <["NODE_PATH":="clobbered"]>
                              (<["NODE_PATH":="/srv/app"]> ∅);
                 cwd := cwd_at "/home/user"; memory := demo_memory;
                 stack_residue := "junk"; getcwd_residue := "left";
                 hidden := Some "/srv/app" |})
    as (s' & t & E & _ & _ & U); try reflexivity.
  exists s', t. split; [exact E|]. apply U. reflexivity.
Defined.

(** * Further properties of the interface *)

Section Coverage.

Context (X : host).

Local Abbreviation R := (runtime_state X).

Lemma wingrr_prep_run (s : state R) t :
  wingrr_prep X t s =
    Returned (Some (fresh (dom (contexts s))))
      (with_contexts
         (<[fresh (dom (contexts s)) :=
              {| mutex := false; program := nullptr; workdir := nullptr; type := t |}]>
            (contexts s)) s) [].
Proof. done. Qed.

Lemma fresh_not_live (s : state R) : contexts s !! fresh (dom (contexts s)) = None.
Proof. apply not_elem_of_dom, is_fresh. Qed.

Lemma wingrr_free_run (s : state R) h c :
  contexts s !! h = Some c -> mutex c = false ->
  wingrr_free X (Some h) s =
    Returned () (with_contexts (delete h (contexts s)) s) [].
Proof. intros L F. unfold wingrr_free. by rewrite L, F. Qed.

Lemma wingrr_set_program_dangling (s : state R) h p :
  contexts s !! h = None -> wingrr_set_program X (Some h) p s = Undefined.
Proof.
  intros L. unfold wingrr_set_program. simpl ptr.
  run (c_assert_run X s (bool_decide (Some h <> nullptr)) eq_refl).
  run (ret_run X s h). unfold lock_guard, mbind at 1, exec_bind at 1.
  by rewrite (lock_dangling X s h L).
Qed.

Lemma wingrr_set_workdir_dangling (s : state R) h w :
  contexts s !! h = None -> wingrr_set_workdir X (Some h) w s = Undefined.
Proof.
  intros L. unfold wingrr_set_workdir. simpl ptr.
  run (c_assert_run X s (bool_decide (Some h <> nullptr)) eq_refl).
  run (ret_run X s h). unfold lock_guard, mbind at 1, exec_bind at 1.
  by rewrite (lock_dangling X s h L).
Qed.

(** X1. Two contexts created one after the other have different handles,
    each is live with its own engine type and nothing configured, the
    contexts that were there are untouched, and the process is not
    touched. *)
Theorem X1_prep_twice_distinct (s : state R) t1 t2 :
  exists a b s',
    prep_twice X t1 t2 s = Returned (Some a, Some b) s' [] /\
    a <> b /\
    contexts s !! a = None /\ contexts s !! b = None /\
    contexts s' !! a =
      Some {| mutex := false; program := nullptr; workdir := nullptr; type := t1 |} /\
    contexts s' !! b =
      Some {| mutex := false; program := nullptr; workdir := nullptr; type := t2 |} /\
    (forall h, h <> a -> h <> b -> contexts s' !! h = contexts s !! h) /\
    proc s' = proc s.
Proof.
  unfold prep_twice.
  run (wingrr_prep_run s t1).
  set (a := fresh (dom (contexts s))).
  set (s1 := with_contexts _ s).
  run (wingrr_prep_run s1 t2).
  set (b := fresh (dom (contexts s1))).
  assert (Na : contexts s !! a = None) by apply fresh_not_live.
  assert (Nb : contexts s1 !! b = None) by apply fresh_not_live.
  assert (D : a <> b).
  { intros E. unfold s1 in Nb. simpl in Nb. by rewrite <- E, lookup_insert_eq in Nb. }
  exists a, b. eexists. split; [done|]. split; [done|]. split; [done|].
  split.
  { unfold s1 in Nb. simpl in Nb. by rewrite lookup_insert_ne in Nb. }
  simpl. split; [by rewrite lookup_insert_ne, lookup_insert_eq|].
  split; [by rewrite lookup_insert_eq|].
  split; [|done].
  intros h Ha Hb. by rewrite !lookup_insert_ne.
Qed.

(** X2. Creating a context and destroying it at once gives the state back
    exactly: the object store is as it was and nothing else happened. *)
Theorem X2_prep_then_free_restores (s : state R) t :
  (wingrr_prep X t ≫= wingrr_free X) s = Returned () s [].
Proof.
  run (wingrr_prep_run s t).
  set (h := fresh (dom (contexts s))).
  set (s1 := with_contexts _ s).
  assert (L : contexts s1 !! h = Some {| mutex := false; program := nullptr;
                                         workdir := nullptr; type := t |})
    by apply lookup_insert_eq.
  rewrite (wingrr_free_run s1 h _ L eq_refl). simpl.
  f_equal. unfold s1, with_contexts. simpl.
  rewrite delete_insert_id by apply fresh_not_live.
  by destruct s.
Qed.

(** X3. After [wingrr_free] the handle is dangling: executing, configuring
    or freeing it again is undefined behaviour, while every other context
    is as before.  The interface has no check for a stale handle. *)
Theorem X3_use_after_free (s : state R) h c :
  contexts s !! h = Some c -> mutex c = false ->
  exists s',
    wingrr_free X (Some h) s = Returned () s' [] /\
    proc s' = proc s /\
    (forall h', h' <> h -> contexts s' !! h' = contexts s !! h') /\
    wingrr_exec X (Some h) s' = Undefined /\
    (forall p, wingrr_set_program X (Some h) p s' = Undefined) /\
    (forall w, wingrr_set_workdir X (Some h) w s' = Undefined) /\
    wingrr_free X (Some h) s' = Undefined.
Proof.
  intros L F. rewrite (wingrr_free_run s h c L F).
  set (s' := with_contexts _ s).
  assert (N : contexts s' !! h = None) by apply lookup_delete_eq.
  exists s'. split; [done|]. split; [done|]. split.
  { intros h' D. simpl. by rewrite lookup_delete_ne. }
  split; [by apply wingrr_exec_dangling|].
  split; [intros p; by apply wingrr_set_program_dangling|].
  split; [intros w; by apply wingrr_set_workdir_dangling|].
  unfold wingrr_free. by rewrite N.
Qed.




(** X5. What a setter that returns has done: it made no foreign call and
    left the process alone; in the object store it replaced one field of
    the one context it was called on, and kept that context's other fields
    and every other context. *)
Theorem X5_setters_change_one_field (s s' : state R) instance v t :
  (wingrr_set_program X instance v s = Returned () s' t ->
     proc s' = proc s /\ calls_of t = [] /\
     exists h c c',
       instance = Some h /\ contexts s !! h = Some c /\ contexts s' !! h = Some c' /\
       program c' = v /\ workdir c' = workdir c /\ type c' = type c /\
       mutex c' = false /\
       (forall h', h' <> h -> contexts s' !! h' = contexts s !! h')) /\
  (wingrr_set_workdir X instance v s = Returned () s' t ->
     proc s' = proc s /\ calls_of t = [] /\
     exists h c c',
       instance = Some h /\ contexts s !! h = Some c /\ contexts s' !! h = Some c' /\
       workdir c' = v /\ program c' = program c /\ type c' = type c /\
       mutex c' = false /\
       (forall h', h' <> h -> contexts s' !! h' = contexts s !! h')).
Proof.
  split; intros E.
  - destruct (wingrr_set_program_returned X _ _ _ _ _ E) as (h & c & -> & L & F).
    rewrite (wingrr_set_program_run X s h c v L F) in E.
    inversion E; subst. clear E.
    split; [done|]. split; [by case_bool_decide|].
    exists h, c, (with_program v c). simpl.
    rewrite lookup_insert_eq. repeat split; try done.
    intros h' D. by rewrite lookup_insert_ne.
  - destruct (wingrr_set_workdir_returned X _ _ _ _ _ E) as (h & c & -> & L & F).
    rewrite (wingrr_set_workdir_run X s h c v L F) in E.
    inversion E; subst. clear E.
    split; [done|]. split; [by case_bool_decide|].
    exists h, c, (with_workdir v c). simpl.
    rewrite lookup_insert_eq. repeat split; try done.
    intros h' D. by rewrite lookup_insert_ne.
Qed.

(** X6. The setters commute.  On one context, program then workdir and
    workdir then program both return and leave the same state; so do two
    program sets on two different contexts. *)
Theorem X6_setters_commute (s : state R) h c p w :
  contexts s !! h = Some c -> mutex c = false ->
  (is_Some (final_state
      ((wingrr_set_program X (Some h) p;; wingrr_set_workdir X (Some h) w) s)) /\
   final_state ((wingrr_set_program X (Some h) p;; wingrr_set_workdir X (Some h) w) s)
   = final_state ((wingrr_set_workdir X (Some h) w;; wingrr_set_program X (Some h) p) s)) /\
  (forall h2 c2 q, h2 <> h -> contexts s !! h2 = Some c2 -> mutex c2 = false ->
     is_Some (final_state
       ((wingrr_set_program X (Some h) p;; wingrr_set_program X (Some h2) q) s)) /\
     final_state ((wingrr_set_program X (Some h) p;; wingrr_set_program X (Some h2) q) s)
     = final_state ((wingrr_set_program X (Some h2) q;; wingrr_set_program X (Some h) p) s)).
Proof.
  intros L F. split.
  - run (wingrr_set_program_run X s h c p L F).
    run (wingrr_set_workdir_run X s h c w L F).
    set (s1 := with_contexts (<[h:=with_program p c]> _) s).
    set (s2 := with_contexts (<[h:=with_workdir w c]> _) s).
    assert (L1 : contexts s1 !! h = Some (with_program p c)) by apply lookup_insert_eq.
    assert (L2 : contexts s2 !! h = Some (with_workdir w c)) by apply lookup_insert_eq.
    rewrite (wingrr_set_workdir_run X s1 h _ w L1 F).
    rewrite (wingrr_set_program_run X s2 h _ p L2 F). simpl.
    split; [by eexists|]. unfold with_contexts, s1, s2. simpl.
    do 2 f_equal. by rewrite !insert_insert_eq.
  - intros h2 c2 q D L2 F2.
    run (wingrr_set_program_run X s h c p L F).
    run (wingrr_set_program_run X s h2 c2 q L2 F2).
    set (s1 := with_contexts (<[h:=with_program p c]> _) s).
    set (s2 := with_contexts (<[h2:=with_program q c2]> _) s).
    assert (L1 : contexts s1 !! h2 = Some c2).
    { simpl. by rewrite lookup_insert_ne. }
    assert (L3 : contexts s2 !! h = Some c).
    { simpl. by rewrite lookup_insert_ne. }
    rewrite (wingrr_set_program_run X s1 h2 c2 q L1 F2).
    rewrite (wingrr_set_program_run X s2 h c p L3 F). simpl.
    split; [by eexists|]. unfold with_contexts, s1, s2. simpl.
    do 2 f_equal. by apply insert_insert_ne.
Qed.

(** X7. The last set wins: after two sets of the program (or workdir) of a
    context, the state is the one the second set alone would have left. *)
Theorem X7_last_set_wins (s : state R) h c v1 v2 :
  contexts s !! h = Some c -> mutex c = false ->
  final_state ((wingrr_set_program X (Some h) v1;; wingrr_set_program X (Some h) v2) s)
  = final_state (wingrr_set_program X (Some h) v2 s) /\
  final_state ((wingrr_set_workdir X (Some h) v1;; wingrr_set_workdir X (Some h) v2) s)
  = final_state (wingrr_set_workdir X (Some h) v2 s).
Proof.
  intros L F. split.
  - run (wingrr_set_program_run X s h c v1 L F).
    set (s1 := with_contexts _ s).
    assert (L1 : contexts s1 !! h = Some (with_program v1 c)) by apply lookup_insert_eq.
    rewrite (wingrr_set_program_run X s1 h _ v2 L1 F).
    rewrite (wingrr_set_program_run X s h c v2 L F). simpl.
    unfold with_contexts, s1. simpl. do 2 f_equal. by rewrite insert_insert_eq.
  - run (wingrr_set_workdir_run X s h c v1 L F).
    set (s1 := with_contexts _ s).
    assert (L1 : contexts s1 !! h = Some (with_workdir v1 c)) by apply lookup_insert_eq.
    rewrite (wingrr_set_workdir_run X s1 h _ v2 L1 F).
    rewrite (wingrr_set_workdir_run X s h c v2 L F). simpl.
    unfold with_contexts, s1. simpl. do 2 f_equal. by rewrite insert_insert_eq.
Qed.

Lemma idle_insert (s : state R) h c :
  idle s -> mutex c = false -> idle (with_contexts (<[h:=c]> (contexts s)) s).
Proof.
  intros I F h' c'. simpl. destruct (decide (h = h')) as [->|D].
  - rewrite lookup_insert_eq. by intros [= <-].
  - rewrite lookup_insert_ne by done. apply I.
Qed.

Lemma run_call_idle (s s' : state R) call t :
  idle s -> run_call X call s = Returned () s' t -> idle s'.
Proof.
  intros I E. destruct call as [instance p|instance w|instance]; simpl in E.
  - destruct (wingrr_set_program_returned X _ _ _ _ _ E) as (h & c & -> & L & F).
    rewrite (wingrr_set_program_run X s h c p L F) in E.
    inversion E; subst. by apply idle_insert.
  - destruct (wingrr_set_workdir_returned X _ _ _ _ _ E) as (h & c & -> & L & F).
    rewrite (wingrr_set_workdir_run X s h c w L F) in E.
    inversion E; subst. by apply idle_insert.
  - unfold mbind, exec_bind in E.
    destruct (wingrr_exec X instance s) as [r s1 t1| | |] eqn:E1; try done.
    simpl in E. inversion E; subst.
    destruct (wingrr_exec_returned X _ _ _ _ _ E1) as (_ & _ & _ & _ & _ & _ & HC).
    intros h c. rewrite HC. apply I.
Qed.

Lemma run_calls_idle calls : forall (s s' : state R) t,
  idle s -> run_calls X calls s = Returned () s' t -> idle s'.
Proof.
  induction calls as [|call calls IH]; intros s s' t I E.
  - by inversion E; subst.
  - simpl in E. unfold mbind, exec_bind in E.
    destruct (run_call X call s) as [[] s1 t1| | |] eqn:E1; try done.
    destruct (run_calls X calls s1) as [[] s2 t2| | |] eqn:E2; try done.
    simpl in E. inversion E; subst.
    eapply IH; [|exact E2]. by eapply run_call_idle.
Qed.

(** X8. Between calls no mutex is held.  If that is so before a call of
    the interface and the call returns, it is so afterwards: every
    [lock_guard] gives back what it took, on the early return of the
    setters too.  Hence it holds after any sequence of setter and execute
    calls that comes back. *)
Theorem X8_no_mutex_left_held (s s' : state R) :
  idle s ->
  (forall t a tr, wingrr_prep X t s = Returned a s' tr -> idle s') /\
  (forall i v tr, wingrr_set_program X i v s = Returned () s' tr -> idle s') /\
  (forall i v tr, wingrr_set_workdir X i v s = Returned () s' tr -> idle s') /\
  (forall i r tr, wingrr_exec X i s = Returned r s' tr -> idle s') /\
  (forall i tr, wingrr_free X i s = Returned () s' tr -> idle s') /\
  (forall calls tr, run_calls X calls s = Returned () s' tr -> idle s').
Proof.
  intros I. repeat split.
  - intros t a tr E. rewrite wingrr_prep_run in E. inversion E; subst.
    by apply idle_insert.
  - intros i v tr E.
    by apply (run_call_idle s s' (call_set_program i v) tr I).
  - intros i v tr E.
    by apply (run_call_idle s s' (call_set_workdir i v) tr I).
  - intros i r tr E.
    destruct (wingrr_exec_returned X _ _ _ _ _ E) as (_ & _ & _ & _ & _ & _ & HC).
    intros h c. rewrite HC. apply I.
  - intros i tr E. unfold wingrr_free in E.
    destruct i as [h|]; [|by inversion E; subst].
    destruct (contexts s !! h) as [c|] eqn:L; [|done].
    destruct (mutex c); [done|]. inversion E; subst.
    intros h' c'. simpl. intros L'.
    apply lookup_delete_Some in L' as [_ L']. by apply (I h' c').
  - intros calls tr E. by apply (run_calls_idle calls s s' tr).
Qed.

(** X9. Executing a context depends on the process and on that context's
    program, workdir and engine type, and on nothing else in the object
    store: two contexts with the same three fields, in two stores, behave
    alike in the same process. *)
Theorem X9_exec_ignores_other_contexts (s1 s2 : state R) h1 h2 c1 c2 :
  proc s1 = proc s2 ->
  contexts s1 !! h1 = Some c1 -> mutex c1 = false ->
  contexts s2 !! h2 = Some c2 -> mutex c2 = false ->
  program c1 = program c2 -> workdir c1 = workdir c2 -> type c1 = type c2 ->
  observe (wingrr_exec X (Some h1) s1) = observe (wingrr_exec X (Some h2) s2).
Proof.
  intros P L1 F1 L2 F2 Ep Ew Et.
  rewrite (wingrr_exec_run X s1 h1 c1 L1 F1), (wingrr_exec_run X s2 h2 c2 L2 F2).
  assert (C : c1 = c2) by (destruct c1, c2; simpl in *; by subst).
  subst c2. destruct s1 as [p H1], s2 as [p2 H2]. simpl in P. subst p2.
  rewrite (proc_only_wingrr_exec_body X c1 p H1 H2).
  by rewrite observe_on_contexts.
Qed.

Lemma foreign_stuck {A} (f : process R -> option (A * process R)) (s : state R) :
  f (proc s) = None -> foreign f s = NoReturn [].
Proof. intros E. unfold foreign. by rewrite E. Qed.

Lemma bind_noreturn {A B} (m : exec_monad R A) (k : A -> exec_monad R B) s t :
  m s = NoReturn t -> (m ≫= k) s = NoReturn t.
Proof. intros E. unfold mbind, exec_bind. by rewrite E. Qed.

(** X10. If the embedded runtime does not come back (the process is ended
    inside it, or it runs for ever), neither does [wingrr_exec]: the search
    path was set to the workdir, the runtime was started once, and the
    restoring [setenv] was never reached. *)
Theorem X10_runtime_that_never_returns (s : state R) h c p w prog wd :
  contexts s !! h = Some c -> mutex c = false ->
  spec_route (type c) = module_runtime ->
  program c = Some p -> workdir c = Some w ->
  memory (proc s) !! p = Some prog -> memory (proc s) !! w = Some wd ->
  node_main X (Z.of_nat (length (expected_args (type c) prog)))
            (expected_args (type c) prog)
            (with_environ (<["NODE_PATH":=wd]> (environ (proc s))) (proc s)) = None ->
  wingrr_exec X (Some h) s =
    NoReturn [ev_setenv "NODE_PATH" wd;
              ev_node_main (Z.of_nat (length (expected_args (type c) prog)))
                           (expected_args (type c) prog)].
Proof.
  intros L F Hr Hp Hw Hmp Hmw Hn.
  rewrite (wingrr_exec_run X s h c L F). unfold wingrr_exec_body.
  rewrite Hp, Hw.
  run (c_assert_run X s (bool_decide (Some p <> nullptr)) eq_refl).
  run (c_assert_run X s (bool_decide (Some w <> nullptr)) eq_refl).
  assert (B : bool_decide (type c = WINGRR_ENGINE_JAVASCRIPT) ||
              bool_decide (type c = WINGRR_ENGINE_TYPESCRIPT) = true)
    by (by destruct (type c)).
  rewrite B. clear B.
  run (uninitialised_run X s 4096).
  destruct (uv_os_getenv_save X (proc s)) as (rc & n & G).
  run (query_run X (fun q => uv_os_getenv q "NODE_PATH"
                     {| extent := 4096; text := stack_residue (proc s) |} 4096)
                 s _ G).
  run (c_str_run X s w wd Hmw).
  run (uv_os_setenv_run X s "NODE_PATH" wd).
  set (s1 := with_proc _ s).
  assert (Hs : c_strs (take (Z.to_nat (Z.of_nat (length (node_argv c)) - 1))
                        (node_argv c)) s1
               = Returned (expected_args (type c) prog) s1 [])
    by (by apply (c_strs_node_argv X) with p).
  rewrite (spec_node_args_length (type c) prog c eq_refl) in Hs |- *.
  assert (N : call_node_main X (Z.of_nat (length (expected_args (type c) prog)))
                (node_argv c) s1
              = NoReturn [ev_node_main (Z.of_nat (length (expected_args (type c) prog)))
                                       (expected_args (type c) prog)]).
  { unfold call_node_main. run Hs.
    run (emit_run X s1 (ev_node_main (Z.of_nat (length (expected_args (type c) prog)))
                                     (expected_args (type c) prog))).
    by rewrite (foreign_stuck _ s1 Hn). }
  by rewrite (bind_noreturn _ _ _ _ N).
Qed.

(** X11. An adapter inside which the process is ended ([exit], a crash)
    or which never finishes.  If that happens in the constructor,
    [execute] is never called; if it happens in [execute], the destructor
    is never run.  In both cases [wingrr_exec] does not return either and
    nothing else was called.  (An adapter that throws is not covered:
    exceptions are outside the model.) *)
Theorem X11_adapter_that_never_returns (s : state R) h c k p w wd :
  contexts s !! h = Some c -> mutex c = false ->
  spec_route (type c) = external_adapter k ->
  program c = Some p -> workdir c = Some w ->
  memory (proc s) !! w = Some wd ->
  (engine_new X k wd (proc s) = None ->
     wingrr_exec X (Some h) s = NoReturn [ev_construct k wd]) /\
  (forall e p1 prog,
     engine_new X k wd (proc s) = Some (e, p1) ->
     memory p1 !! p = Some prog ->
     engine_execute X k e prog p1 = None ->
     wingrr_exec X (Some h) s = NoReturn [ev_construct k wd; ev_execute k prog]).
Proof.
  intros L F Hr Hp Hw Hmw.
  rewrite (wingrr_exec_run X s h c L F), (adapter_branch_run X s c k p w Hr Hp Hw).
  unfold run_engine. split.
  - intros Hnew.
    run (c_str_run X s w wd Hmw).
    run (emit_run X s (ev_construct k wd)).
    by rewrite (bind_noreturn _ _ _ _ (foreign_stuck _ s Hnew)).
  - intros e p1 prog Hnew Hmp Hexe.
    run (c_str_run X s w wd Hmw).
    run (emit_run X s (ev_construct k wd)).
    run (foreign_run X _ s e p1 Hnew).
    run (c_str_run X (with_proc p1 s) p prog Hmp).
    run (emit_run X (with_proc p1 s) (ev_execute k prog)).
    by rewrite (bind_noreturn _ _ _ _ (foreign_stuck _ (with_proc p1 s) Hexe)).
Qed.

(** X12. The vector handed to the runtime follows the C convention:
    [argc] counts nine entries for JavaScript and eleven for TypeScript,
    [argv[argc]] is the null terminator, [argv[argc - 1]] is the program
    pointer, and with a program set no entry before the terminator is
    null. *)
Theorem X12_argv_is_null_terminated (c : wingrr_context_t_) :
  let argc := Z.to_nat (Z.of_nat (length (node_argv c)) - 1) in
  argc = (if bool_decide (type c = WINGRR_ENGINE_TYPESCRIPT) then 11 else 9)%nat /\
  node_argv c !! argc = Some (Pointer nullptr) /\
  node_argv c !! (argc - 1)%nat = Some (Pointer (program c)) /\
  (program c <> nullptr ->
   forall i, (i < argc)%nat -> node_argv c !! i <> Some (Pointer nullptr)).
Proof.
  unfold node_argv.
  destruct (bool_decide (type c = WINGRR_ENGINE_TYPESCRIPT)); simpl;
    (split; [done|]; split; [done|]; split; [done|]);
    intros Hp i Hi;
    repeat (destruct i as [|i]; [simpl; congruence|]);
    lia.
Qed.

(** X13. While the runtime runs and after it returns, the dispatcher has
    touched one environment variable only: every variable other than
    NODE_PATH has the value the runtime left it with, and the working
    directory and the caller's strings are as the runtime left them. *)
Theorem X13_only_the_search_path_is_scoped (s : state R) h c p w prog wd r q' :
  contexts s !! h = Some c -> mutex c = false ->
  spec_route (type c) = module_runtime ->
  program c = Some p -> workdir c = Some w ->
  memory (proc s) !! p = Some prog -> memory (proc s) !! w = Some wd ->
  runtime_answers X (expected_args (type c) prog) wd (proc s) r q' ->
  exists s' t,
    wingrr_exec X (Some h) s = Returned r s' t /\
    (forall name, name <> "NODE_PATH" ->
       environ (proc s') !! name = environ q' !! name) /\
    cwd (proc s') = cwd q' /\ memory (proc s') = memory q' /\
    hidden (proc s') = hidden q' /\
    (forall n v, ev_setenv n v ∈ t -> n = "NODE_PATH").
Proof.
  intros L F Hr Hp Hw Hmp Hmw Hn.
  rewrite (wingrr_exec_run X s h c L F).
  rewrite (node_branch_run X s c p w prog wd r q' Hr Hp Hw Hmp Hmw Hn).
  eexists _, _. split; [done|]. simpl. split.
  { intros name D. by rewrite lookup_insert_ne. }
  repeat split; try done.
  intros n v In. rewrite !elem_of_cons, elem_of_nil in In.
  destruct In as [E|[E|[E|[]]]]; by inversion E.
Qed.

Lemma invocations_app t1 t2 :
  invocations (t1 ++ t2) = invocations t1 ++ invocations t2.
Proof. apply omap_app. Qed.

(** Executing a configured context whose path answers: the status comes
    back, the object store is as before, one path was invoked. *)
Lemma exec_path_run (s : state R) h c p w prog wd r q' :
  contexts s !! h = Some c -> mutex c = false ->
  program c = Some p -> workdir c = Some w ->
  memory (proc s) !! w = Some wd ->
  path_answers X (type c) wd p prog (proc s) r q' ->
  exists q'' t,
    wingrr_exec X (Some h) s = Returned r (with_proc q'' s) t /\
    invocations t = [spec_route (type c)] /\
    (forall k, spec_route (type c) = external_adapter k -> q'' = q').
Proof.
  intros E F Hp Hw Hmw Hans. rewrite (wingrr_exec_run X s h c E F).
  unfold path_answers in Hans.
  destruct (spec_route (type c)) as [|k] eqn:Hr.
  - destruct Hans as [Hmp Hn].
    rewrite (node_branch_run X s c p w prog wd r q' Hr Hp Hw Hmp Hmw Hn).
    eexists _, _. split; [done|]. split; [done|]. intros k [=].
  - destruct Hans as (e & p1 & e' & p2 & Hnew & Hmp & Hexe & Hdel).
    rewrite (adapter_branch_run X s c k p w Hr Hp Hw).
    rewrite (run_engine_run X s k w p wd prog e p1 r e' p2 q' Hmw Hnew Hmp Hexe Hdel).
    by eexists _, _.
Qed.

(** X14. A whole session: create a context, set program and workdir,
    execute, free.  When the path selected by the engine type answers, the
    session returns that status, exactly one path was invoked, and the
    object store is left exactly as it was found: no context stays behind. *)
Theorem X14_session_leaves_nothing_behind (s : state R) t p w prog wd r q' :
  memory (proc s) !! w = Some wd ->
  path_answers X t wd p prog (proc s) r q' ->
  exists s' tr,
    session X t (Some p) (Some w) s = Returned r s' tr /\
    contexts s' = contexts s /\
    invocations tr = [spec_route t] /\
    (forall k, spec_route t = external_adapter k -> proc s' = q').
Proof.
  intros Hmw Hans. unfold session.
  run (wingrr_prep_run s t).
  set (h := fresh (dom (contexts s))).
  set (c0 := {| mutex := false; program := nullptr; workdir := nullptr; type := t |}).
  set (s1 := with_contexts _ s).
  assert (N : contexts s !! h = None) by apply fresh_not_live.
  assert (L1 : contexts s1 !! h = Some c0) by apply lookup_insert_eq.
  run (wingrr_set_program_run X s1 h c0 (Some p) L1 eq_refl).
  set (s2 := with_contexts _ s1).
  assert (L2 : contexts s2 !! h = Some (with_program (Some p) c0))
    by apply lookup_insert_eq.
  run (wingrr_set_workdir_run X s2 h _ (Some w) L2 eq_refl).
  set (s3 := with_contexts _ s2).
  set (c3 := with_workdir (Some w) (with_program (Some p) c0)).
  assert (L3 : contexts s3 !! h = Some c3) by apply lookup_insert_eq.
  destruct (exec_path_run s3 h c3 p w prog wd r q' L3 eq_refl eq_refl eq_refl Hmw Hans)
    as (q'' & te & Ee & Ie & Qe).
  run Ee.
  assert (L4 : contexts (with_proc q'' s3) !! h = Some c3) by exact L3.
  run (wingrr_free_run (with_proc q'' s3) h c3 L4 eq_refl).
  simpl. eexists _, _. split; [done|]. simpl. split.
  { rewrite !insert_insert_eq. by apply delete_insert_id. }
  split; [|exact Qe].
  rewrite !invocations_app, Ie. by rewrite app_nil_r.
Qed.

(** X15. The setters do not validate what they store.  A null program or
    workdir is accepted without complaint, and it is the next
    [wingrr_exec] that ends in [abort()], before any foreign call. *)
Theorem X15_setters_accept_null (s : state R) h c :
  contexts s !! h = Some c -> mutex c = false ->
  (exists s' t, wingrr_set_program X (Some h) nullptr s = Returned () s' t) /\
  (exists s' t, wingrr_set_workdir X (Some h) nullptr s = Returned () s' t) /\
  observe ((wingrr_set_program X (Some h) nullptr;; wingrr_exec X (Some h)) s)
    = aborts [] /\
  observe ((wingrr_set_workdir X (Some h) nullptr;; wingrr_exec X (Some h)) s)
    = aborts [].
Proof.
  intros L F.
  split; [eexists _, _; by apply wingrr_set_program_run|].
  split; [eexists _, _; by apply wingrr_set_workdir_run|].
  split.
  - run (wingrr_set_program_run X s h c nullptr L F).
    set (s1 := with_contexts _ s).
    assert (L1 : contexts s1 !! h = Some (with_program nullptr c))
      by apply lookup_insert_eq.
    rewrite (wingrr_exec_run X s1 h _ L1 F).
    rewrite observe_prepend by (by case_bool_decide). done.
  - run (wingrr_set_workdir_run X s h c nullptr L F).
    set (s1 := with_contexts _ s).
    assert (L1 : contexts s1 !! h = Some (with_workdir nullptr c))
      by apply lookup_insert_eq.
    rewrite (wingrr_exec_run X s1 h _ L1 F).
    rewrite observe_prepend by (by case_bool_decide).
    unfold wingrr_exec_body. simpl.
    by destruct (program c).
Qed.

End Coverage.

(** ** Further properties of the path resolver *)

Section Paths.

Context {R : Type}.

Lemma substring_whole (s : string) : String.substring 0 (String.length s) s = s.
Proof. induction s as [|a s IH]; simpl; by rewrite ?IH. Qed.

Lemma substring_skip (a b : string) n :
  String.substring (String.length a) n (a +:+ b) = String.substring 0 n b.
Proof. induction a as [|x a IH]; simpl; [done|exact IH]. Qed.

Lemma substring_head (a b : string) :
  String.substring 0 (String.length a) (a +:+ b) = a.
Proof.
  induction a as [|x a IH]; simpl.
  - by destruct b.
  - by rewrite IH.
Qed.

Lemma append_length (a b : string) :
  String.length (a +:+ b) = (String.length a + String.length b)%nat.
Proof. induction a as [|x a IH]; simpl; by rewrite ?IH. Qed.

Lemma append_cons x (a b : string) : String x a +:+ b = String x (a +:+ b).
Proof. done. Qed.

Lemma append_assoc (a b c : string) : (a +:+ b) +:+ c = a +:+ (b +:+ c).
Proof. induction a as [|x a IH]; [done|]. by rewrite !append_cons, IH. Qed.

Lemma append_cancel (a b1 b2 : string) : a +:+ b1 = a +:+ b2 -> b1 = b2.
Proof. apply (inj (String.append a)). Qed.

(** X16. [_resolve] only joins: the root and the relative path can both be
    read back from the result, at the positions before and after the
    separator, with nothing normalised away; so for one root, different
    relative paths resolve to different paths. *)
Theorem X16_resolve_keeps_both_parts (root rel rel' : string) :
  String.length (_resolve root rel) = (String.length root + 1 + String.length rel)%nat /\
  String.substring 0 (String.length root) (_resolve root rel) = root /\
  String.substring (String.length root) 1 (_resolve root rel) = "/" /\
  String.substring (String.length root + 1) (String.length rel) (_resolve root rel) = rel /\
  (_resolve root rel = _resolve root rel' -> rel = rel').
Proof.
  unfold _resolve. repeat split.
  - rewrite !append_length. simpl. lia.
  - apply substring_head.
  - rewrite substring_skip. simpl. by destruct rel.
  - replace (String.length root + 1)%nat with (String.length (root +:+ "/"))
      by (rewrite append_length; done).
    rewrite <- append_assoc, substring_skip. apply substring_whole.
  - intros E. apply append_cancel in E. by apply (append_cancel "/") in E.
Qed.




End Paths.

(** ** Further worked examples *)

Lemma demo_state_idle env t p w : idle (demo_state env t p w).
Proof.
  intros h c L. simpl in L. apply lookup_singleton_Some in L as [_ <-]. done.
Defined.

Lemma X3_example :
  exists s',
    wingrr_free demo_host (Some 1%positive)
      (demo_state ∅ WINGRR_ENGINE_GO (Some 1%positive) (Some 2%positive))
    = Returned () s' [] /\
    wingrr_exec demo_host (Some 1%positive) s' = Undefined /\
    wingrr_free demo_host (Some 1%positive) s' = Undefined.
Proof.
  destruct (X3_use_after_free demo_host
              (demo_state ∅ WINGRR_ENGINE_GO (Some 1%positive) (Some 2%positive))
              1%positive
              {| mutex := false; program := Some 1%positive;
                 workdir := Some 2%positive; type := WINGRR_ENGINE_GO |}
              eq_refl eq_refl)
    as (s' & E & _ & _ & U1 & _ & _ & U2).
  by exists s'.
Defined.


Lemma X5_example :
  let s := demo_state ∅ WINGRR_ENGINE_GO (Some 1%positive) (Some 2%positive) in
  let s' := demo_state ∅ WINGRR_ENGINE_GO (Some 3%positive) (Some 2%positive) in
  wingrr_set_program demo_host (Some 1%positive) (Some 3%positive) s
  = Returned () s' [ev_store 1%positive f_program (Some 3%positive)] /\
  proc s' = proc s /\
  calls_of [ev_store 1%positive f_program (Some 3%positive)] = [].
Proof.
  intros s s'.
  assert (E : wingrr_set_program demo_host (Some 1%positive) (Some 3%positive) s
              = Returned () s' [ev_store 1%positive f_program (Some 3%positive)])
    by (vm_compute; reflexivity).
  split; [exact E|].
  destruct (proj1 (X5_setters_change_one_field demo_host s s' (Some 1%positive)
                     (Some 3%positive) _) E) as (P & C & _).
  by split.
Defined.

Lemma X6_example :
  let s := demo_state ∅ WINGRR_ENGINE_GO (Some 1%positive) (Some 2%positive) in
  final_state ((wingrr_set_program demo_host (Some 1%positive) (Some 3%positive);;
                wingrr_set_workdir demo_host (Some 1%positive) (Some 4%positive)) s)
  = final_state ((wingrr_set_workdir demo_host (Some 1%positive) (Some 4%positive);;
                  wingrr_set_program demo_host (Some 1%positive) (Some 3%positive)) s).
Proof.
  intros s.
  exact (proj2 (proj1 (X6_setters_commute demo_host s 1%positive _
                         (Some 3%positive) (Some 4%positive) eq_refl eq_refl))).
Defined.

Lemma X7_example :
  let s := demo_state ∅ WINGRR_ENGINE_GO (Some 1%positive) (Some 2%positive) in
  final_state ((wingrr_set_program demo_host (Some 1%positive) (Some 3%positive);;
                wingrr_set_program demo_host (Some 1%positive) (Some 4%positive)) s)
  = final_state (wingrr_set_program demo_host (Some 1%positive) (Some 4%positive) s).
Proof.
  intros s.
  exact (proj1 (X7_last_set_wins demo_host s 1%positive _
                  (Some 3%positive) (Some 4%positive) eq_refl eq_refl)).
Defined.

Lemma X8_example :
  idle (demo_state ∅ WINGRR_ENGINE_GO (Some 3%positive) (Some 2%positive)).
Proof.
  apply (proj1 (proj2 (X8_no_mutex_left_held demo_host
                         (demo_state ∅ WINGRR_ENGINE_GO (Some 1%positive) (Some 2%positive))
                         (demo_state ∅ WINGRR_ENGINE_GO (Some 3%positive) (Some 2%positive))
                         (demo_state_idle _ _ _ _)))
           (Some 1%positive) (Some 3%positive)
           [ev_store 1%positive f_program (Some 3%positive)]).
  vm_compute. reflexivity.
Defined.

Lemma X9_example :
  observe (wingrr_exec demo_host (Some 1%positive)
             (demo_state ∅ WINGRR_ENGINE_PYTHON (Some 1%positive) (Some 2%positive)))
  = observe (wingrr_exec demo_host (Some 7%positive)
               {| proc := demo_process ∅;
                  contexts := {[ 7%positive :=
                    {| mutex := false; program := Some 1%positive;
                       workdir := Some 2%positive; type := WINGRR_ENGINE_PYTHON |} ]} |}).
Proof.
  apply (X9_exec_ignores_other_contexts demo_host _ _ 1%positive 7%positive
           {| mutex := false; program := Some 1%positive;
              workdir := Some 2%positive; type := WINGRR_ENGINE_PYTHON |}
           {| mutex := false; program := Some 1%positive;
              workdir := Some 2%positive; type := WINGRR_ENGINE_PYTHON |});
    reflexivity.
Defined.

Lemma X10_example :
  wingrr_exec (hanging_host true) (Some 1%positive)
    (demo_state ∅ WINGRR_ENGINE_JAVASCRIPT (Some 3%positive) (Some 4%positive))
  = NoReturn [ev_setenv "NODE_PATH" "/srv/app";
              ev_node_main 9 ["wingrr"; "--experimental-modules";
                              "--experimental-wasi-unstable-preview1";
                              "--no-global-search-paths"; "--no-experimental-fetch";
                              "--no-deprecation"; "--no-warnings"; "--no-addons";
                              "main.ts"]].
Proof.
  apply (X10_runtime_that_never_returns (hanging_host true)
           (demo_state ∅ WINGRR_ENGINE_JAVASCRIPT (Some 3%positive) (Some 4%positive))
           1%positive
           {| mutex := false; program := Some 3%positive;
              workdir := Some 4%positive; type := WINGRR_ENGINE_JAVASCRIPT |}
           3%positive 4%positive "main.ts" "/srv/app");
    reflexivity.
Defined.

Lemma X11_example :
  wingrr_exec (hanging_host false) (Some 1%positive)
    (demo_state ∅ WINGRR_ENGINE_LUA (Some 1%positive) (Some 2%positive))
  = NoReturn [ev_construct LuaEngine "/tmp/scripts"] /\
  wingrr_exec (hanging_host true) (Some 1%positive)
    (demo_state ∅ WINGRR_ENGINE_LUA (Some 1%positive) (Some 2%positive))
  = NoReturn [ev_construct LuaEngine "/tmp/scripts"; ev_execute LuaEngine "hello.py"].
Proof.
  split.
  - apply (proj1 (X11_adapter_that_never_returns (hanging_host false)
                    (demo_state ∅ WINGRR_ENGINE_LUA (Some 1%positive) (Some 2%positive))
                    1%positive
                    {| mutex := false; program := Some 1%positive;
                       workdir := Some 2%positive; type := WINGRR_ENGINE_LUA |}
                    LuaEngine 1%positive 2%positive "/tmp/scripts"
                    eq_refl eq_refl eq_refl eq_refl eq_refl eq_refl)).
    reflexivity.
  - apply (proj2 (X11_adapter_that_never_returns (hanging_host true)
                    (demo_state ∅ WINGRR_ENGINE_LUA (Some 1%positive) (Some 2%positive))
                    1%positive
                    {| mutex := false; program := Some 1%positive;
                       workdir := Some 2%positive; type := WINGRR_ENGINE_LUA |}
                    LuaEngine 1%positive 2%positive "/tmp/scripts"
                    eq_refl eq_refl eq_refl eq_refl eq_refl eq_refl)
             "/tmp/scripts" (demo_process ∅) "hello.py");
      reflexivity.
Defined.

Lemma X12_example :
  node_argv {| mutex := false; program := Some 3%positive;
               workdir := Some 4%positive; type := WINGRR_ENGINE_TYPESCRIPT |}
    !! 11%nat = Some (Pointer nullptr) /\
  node_argv {| mutex := false; program := Some 3%positive;
               workdir := Some 4%positive; type := WINGRR_ENGINE_TYPESCRIPT |}
    !! 10%nat <> Some (Pointer nullptr).
Proof.
  split.
  - exact (proj1 (proj2 (X12_argv_is_null_terminated
             {| mutex := false; program := Some 3%positive;
                workdir := Some 4%positive; type := WINGRR_ENGINE_TYPESCRIPT |}))).
  - apply (proj2 (proj2 (proj2 (X12_argv_is_null_terminated
             {| mutex := false; program := Some 3%positive;
                workdir := Some 4%positive; type := WINGRR_ENGINE_TYPESCRIPT |})))).
    + discriminate.
    + vm_compute. lia.
Defined.

Lemma X13_example :
  exists s' t,
    wingrr_exec demo_host (Some 1%positive)
      (demo_state {[ "HOME" := "/home/user" ]} WINGRR_ENGINE_JAVASCRIPT
                  (Some 3%positive) (Some 4%positive))
    = Returned 7 s' t /\
    environ (proc s') !! "HOME" = Some "/home/user".
Proof.
  destruct (X13_only_the_search_path_is_scoped demo_host
              (demo_state {[ "HOME" := "/home/user" ]} WINGRR_ENGINE_JAVASCRIPT
                          (Some 3%positive) (Some 4%positive))
              1%positive
              {| mutex := false; program := Some 3%positive;
                 workdir := Some 4%positive; type := WINGRR_ENGINE_JAVASCRIPT |}
              3%positive 4%positive "main.ts" "/srv/app" 7
              {| environ := <["NODE_PATH":="clobbered"]>
                              (<["NODE_PATH":="/srv/app"]> {[ "HOME" := "/home/user" ]});
                 cwd := cwd_at "/home/user"; memory := demo_memory;
                 stack_residue := "junk"; getcwd_residue := "left";
                 hidden := Some "/srv/app" |})
    as (s' & t & E & V & _); try reflexivity.
  exists s', t. split; [exact E|].
  rewrite (V "HOME") by discriminate. reflexivity.
Defined.

Lemma X14_example :
  exists s' tr,
    session demo_host WINGRR_ENGINE_PYTHON (Some 1%positive) (Some 2%positive)
            (State (demo_process ∅) ∅)
    = Returned 14 s' tr /\
    contexts s' = ∅ /\
    invocations tr = [external_adapter PythonEngine].
Proof.
  destruct (X14_session_leaves_nothing_behind demo_host (State (demo_process ∅) ∅)
              WINGRR_ENGINE_PYTHON 1%positive 2%positive "hello.py" "/tmp/scripts"
              14 (demo_process ∅))
    as (s' & tr & E & C & I & _).
  - reflexivity.
  - exists "/tmp/scripts", (demo_process ∅), "/tmp/scripts", (demo_process ∅).
    repeat split; reflexivity.
  - by exists s', tr.
Defined.

Lemma X15_example :
  observe ((wingrr_set_program demo_host (Some 1%positive) nullptr;;
            wingrr_exec demo_host (Some 1%positive))
             (demo_state ∅ WINGRR_ENGINE_GO (Some 1%positive) (Some 2%positive)))
  = aborts [].
Proof.
  exact (proj1 (proj2 (proj2 (X15_setters_accept_null demo_host
           (demo_state ∅ WINGRR_ENGINE_GO (Some 1%positive) (Some 2%positive))
           1%positive
           {| mutex := false; program := Some 1%positive;
              workdir := Some 2%positive; type := WINGRR_ENGINE_GO |}
           eq_refl eq_refl)))).
Defined.

Lemma X16_example :
  _resolve "/opt/wing" "lib/x.js" = "/opt/wing/lib/x.js" /\
  "lib/x.js" = "lib/x.js".
Proof.
  split; [reflexivity|].
  apply (proj2 (proj2 (proj2 (proj2
           (X16_resolve_keeps_both_parts "/opt/wing" "lib/x.js" "lib/x.js"))))).
  reflexivity.
Defined.

